(** * Article-Search-Pipeline: indexing and hybrid search, verified

    A shallow embedding of [milvus_insert.py] and [milvus_search.py].
    The two scripts talk to three outside parties: the sentence embedder,
    the Milvus server and the MySQL database.  Their state is gathered in a
    [world] record that the embedded functions thread explicitly; what a
    party answers is either computed from that state (tables, collections)
    or left as a section variable (the embedder, the nearest-neighbour
    search, the free-form date parser, the clock).

    Conventions.
    - A Python [str] is a [string] whose characters are the code points
      below 256; a Python [int] is a [Z].
    - A [date] is its proleptic Gregorian ordinal ([date.toordinal()]).
    - A Python exception is a value of [exn]; a call that may raise
      returns a [result]. *)

From Stdlib Require Import ZArith QArith List String Ascii Bool Lia Lqa Reals Lra.
From stdpp Require Import gmap strings list pretty.
Import ListNotations.

Local Open Scope string_scope.
Local Open Scope Z_scope.

(** ** Python values shared by the two scripts *)

Module Py.

Inductive exn : Type :=
| ValueError (msg : string)
| KeyError (key : string)
| OverflowError (msg : string)
| IndexError (msg : string)
| LibraryError (msg : string).

(** [str(e)], as the f-strings of the scripts print it. *)
Definition str_exn (e : exn) : string :=
  match e with
  | ValueError m => m
  | KeyError k => "'" +:+ k +:+ "'"
  | OverflowError m => m
  | IndexError m => m
  | LibraryError m => m
  end.

Inductive result (A : Type) : Type :=
| Returned (a : A)
| Raised (e : exn).
Arguments Returned {A} a.
Arguments Raised {A} e.

#[export] Instance result_ret : MRet result := fun _ a => Returned a.
#[export] Instance result_bind : MBind result := fun _ _ f r =>
  match r with
  | Returned a => f a
  | Raised e => Raised e
  end.

(** [str.lower()] on the code points below 256: the ASCII capitals and the
    Latin-1 capitals (all of U+00C0..U+00DE but the multiplication sign). *)
Definition lower_char (c : ascii) : ascii :=
  let n := nat_of_ascii c in
  if ((65 <=? n) && (n <=? 90))%nat then ascii_of_nat (n + 32)
  else if ((192 <=? n) && (n <=? 222) && negb (n =? 215))%nat
       then ascii_of_nat (n + 32)
  else c.

Fixpoint lower (s : string) : string :=
  match s with
  | EmptyString => EmptyString
  | String c r => String (lower_char c) (lower r)
  end.

(** [needle in hay] *)
Fixpoint contains (needle hay : string) : bool :=
  String.prefix needle hay ||
  match hay with
  | EmptyString => false
  | String _ r => contains needle r
  end.

(** [int(s)] for a run of decimal digits.  CPython reads at most
    [sys.get_int_max_str_digits()] digits, 4300 unless configured
    otherwise, and raises [ValueError] for a longer run. *)
Definition digit_value (c : ascii) : Z := Z.of_nat (nat_of_ascii c) - 48.

Fixpoint int_from (acc : Z) (s : string) : Z :=
  match s with
  | EmptyString => acc
  | String c r => int_from (10 * acc + digit_value c) r
  end.

Definition int_max_str_digits : nat := 4300.

Definition int (s : string) : result Z :=
  if (String.length s <=? int_max_str_digits)%nat
  then Returned (int_from 0 s)
  else Raised (ValueError
                 ("Exceeds the limit (4300 digits) for integer string conversion: value has "
                  +:+ pretty (String.length s)
                  +:+ " digits; use sys.set_int_max_str_digits() to increase the limit")).

End Py.
Export Py.

(** ** [datetime] and [timedelta] *)

Module Datetime.

Definition date : Type := Z.

Record datetime : Type := mk_datetime
  { ordinal : Z;            (* the day, as [toordinal()] *)
    microsecond_of_day : Z  (* the time of day *) }.

Definition date_of (d : datetime) : date := ordinal d.

(** [date.max.toordinal()], 9999-12-31; [date.min] has ordinal 1. *)
Definition MAXORDINAL : Z := 3652059.

(** [timedelta(days=d)]: the day count is limited to nine digits. *)
Definition timedelta_days (d : Z) : result Z :=
  if Z.abs d <=? 999999999 then Returned d
  else Raised (OverflowError "days out of range for timedelta").

Definition timedelta_weeks (w : Z) : result Z := timedelta_days (7 * w).

(** [now - delta] for a delta of whole days: the time of day is kept and
    the result has to be a representable [datetime]. *)
Definition datetime_sub (now : datetime) (delta : Z) : result datetime :=
  let o := ordinal now - delta in
  if (1 <=? o) && (o <=? MAXORDINAL)
  then Returned (mk_datetime o (microsecond_of_day now))
  else Raised (OverflowError "date value out of range").

End Datetime.
Export Datetime.

(** ** The pattern of [parse_date_filter]

    [re.search(r"(last|past)\s(\d+)\s(days|weeks|months)", query,
    re.IGNORECASE)].  On code points below 256 case-insensitive matching of
    the pattern's letters is ASCII case folding, [\d] is [0-9] and [\s] is
    the set that [str.isspace] accepts.  The matcher below tries every
    start position from the left.  At one position no backtracking can
    find a match that the direct reading misses: the alternatives of each
    group start with different letters, and giving back a digit of [\d+]
    leaves a digit where [\s] is wanted. *)

Module Pattern.

Definition is_space (c : ascii) : bool :=
  let n := nat_of_ascii c in
  ((9 <=? n) && (n <=? 13) || (28 <=? n) && (n <=? 32)
   || (n =? 133) || (n =? 160))%nat.

Definition is_digit (c : ascii) : bool :=
  let n := nat_of_ascii c in ((48 <=? n) && (n <=? 57))%nat.

(** A lower-case literal matched case-insensitively at the head of [s];
    the rest of [s] is returned. *)
Fixpoint match_literal (lit s : string) : option string :=
  match lit, s with
  | EmptyString, _ => Some s
  | String l lit', String c s' =>
      if Ascii.eqb (lower_char c) l then match_literal lit' s' else None
  | String _ _, EmptyString => None
  end.

(** A group of literal alternatives, tried in order; the alternative that
    matched is returned with the rest of [s]. *)
Fixpoint match_alternatives (alts : list string) (s : string)
  : option (string * string) :=
  match alts with
  | [] => None
  | a :: alts' =>
      match match_literal a s with
      | Some rest => Some (a, rest)
      | None => match_alternatives alts' s
      end
  end.

(** The longest run of digits at the head of [s], and the rest. *)
Fixpoint span_digits (s : string) : string * string :=
  match s with
  | EmptyString => (EmptyString, EmptyString)
  | String c r =>
      if is_digit c
      then let '(ds, rest) := span_digits r in (String c ds, rest)
      else (EmptyString, s)
  end.

Definition match_space (s : string) : option string :=
  match s with
  | String c r => if is_space c then Some r else None
  | EmptyString => None
  end.

(** The pattern anchored at the head of [s]: group 2 and the lower-cased
    group 3. *)
Definition match_here (s : string) : option (string * string) :=
  '(_, r1) ← match_alternatives ["last"; "past"] s;
  r2 ← match_space r1;
  let '(ds, r3) := span_digits r2 in
  match ds with
  | EmptyString => None
  | String _ _ =>
      r4 ← match_space r3;
      '(unit, _) ← match_alternatives ["days"; "weeks"; "months"] r4;
      Some (ds, unit)
  end.

Fixpoint re_search (s : string) : option (string * string) :=
  match match_here s with
  | Some m => Some m
  | None =>
      match s with
      | EmptyString => None
      | String _ r => re_search r
      end
  end.

End Pattern.
Export Pattern.

(** ** [parse_date_filter] (milvus_search.py) *)

Section ParseDateFilter.

(** [datetime.now()] and [dateparser.parse].  The parser is taken as a
    function that answers a query with a date or with [None]; a run in
    which the library itself raises is not described, so the statements
    about rule 4 speak of the queries the parser answers. *)
Variable now : datetime.
Variable dateparser_parse : string -> option datetime.

Definition date_range : Type := (date * date)%type.

Definition parse_date_filter (query : string) : result (option date_range) :=
  if contains "last week" (lower query) then
    td ← timedelta_days 7;
    start ← datetime_sub now td;
    mret (Some (date_of start, date_of now))
  else if contains "last month" (lower query) then
    td ← timedelta_days 30;
    start ← datetime_sub now td;
    mret (Some (date_of start, date_of now))
  else if contains "last" (lower query) || contains "past" (lower query) then
    match re_search query with
    | Some (group2, group3) =>
        duration ← int group2;
        if String.eqb group3 "days" then
          td ← timedelta_days duration;
          start ← datetime_sub now td;
          mret (Some (date_of start, date_of now))
        else if String.eqb group3 "weeks" then
          td ← timedelta_weeks duration;
          start ← datetime_sub now td;
          mret (Some (date_of start, date_of now))
        else if String.eqb group3 "months" then
          td ← timedelta_days (30 * duration);
          start ← datetime_sub now td;
          mret (Some (date_of start, date_of now))
        else mret None
    | None => mret None
    end
  else
    match dateparser_parse query with
    | Some parsed_date => mret (Some (date_of parsed_date, date_of now))
    | None => mret None
    end.

End ParseDateFilter.

(** ** The outside world: the Milvus server, the MySQL tables, the terminal *)

Module World.

(** *** Milvus schemas *)

Inductive DataType : Type := FLOAT_VECTOR | INT64 | VARCHAR.

Record FieldSchema : Type := mk_field
  { field_name : string;
    dtype : DataType;
    params : gmap string Z;   (* [field.params], e.g. [{"dim": 768}] *)
    is_primary : bool;
    auto_id : bool }.

Record CollectionSchema : Type := mk_schema
  { fields : list FieldSchema;
    description : string }.

(** *** MySQL rows, columns as [create_database_and_tables] declares them;
    a nullable column is an [option]. *)

Record article_row : Type := mk_article
  { a_id : Z;
    a_title : string;
    a_author : option string;
    a_publication_date : option date;
    a_abstract : option string }.

Record summary_row : Type := mk_summary
  { s_id : Z;
    s_article_id : option Z;
    s_summary : option string;
    s_keywords : option string }.

Section Scalars.

(** The element type of an embedding. *)
Context {F : Type}.

Definition vector : Type := list F.

(** A stored entity is a row [(embeddings, id)]; entities are kept in
    insertion order. *)
Record collection : Type := mk_collection
  { schema : CollectionSchema;
    entities : list (vector * Z) }.

Record world : Type := mk_world
  { milvus : gmap string collection;        (* collections by name *)
    articles : list article_row;            (* table [articles] *)
    article_summaries : list summary_row;   (* table [article_summaries] *)
    stdout : list string }.                 (* lines printed so far *)

(** A computation reads and changes the world and returns or raises. *)
Definition M (A : Type) : Type := world -> world * result A.

#[export] Instance M_ret : MRet M := fun _ a w => (w, Returned a).
#[export] Instance M_bind : MBind M := fun _ _ f m w =>
  match m w with
  | (w', Returned a) => f a w'
  | (w', Raised e) => (w', Raised e)
  end.

Definition raise {A : Type} (e : exn) : M A := fun w => (w, Raised e).

Definition lift {A : Type} (r : result A) : M A := fun w => (w, r).

Definition gets {A : Type} (f : world -> A) : M A :=
  fun w => (w, Returned (f w)).

(** The world after some more lines went to the terminal. *)
Definition printed (w : world) (lines : list string) : world :=
  mk_world (milvus w) (articles w) (article_summaries w) (stdout w ++ lines).

Definition print (line : string) : M unit := fun w =>
  (printed w [line], Returned tt).

Definition set_milvus (m : gmap string collection) : M unit := fun w =>
  (mk_world m (articles w) (article_summaries w) (stdout w), Returned tt).

(** [try: body except Exception as e: handler e] *)
Definition try_except {A : Type} (body : M A) (handler : exn -> M A) : M A :=
  fun w =>
    match body w with
    | (w', Returned a) => (w', Returned a)
    | (w', Raised e) => handler e w'
    end.

End Scalars.
Arguments collection F : clear implicits.
Arguments world F : clear implicits.
Arguments M F A : clear implicits.
Arguments vector F : clear implicits.
Arguments printed {F} w lines.

(** [str(ids)] for a list of ints: ["[5, 2, 9]"]. *)
Fixpoint join (sep : string) (l : list string) : string :=
  match l with
  | [] => ""
  | [x] => x
  | x :: r => x +:+ sep +:+ join sep r
  end.

Definition str_int (n : Z) : string := pretty n.

Definition str_int_list (l : list Z) : string :=
  "[" +:+ join ", " (map str_int l) +:+ "]".

End World.
Export World.

(** ** milvus_search.py *)

Module milvus_search.

Section Search.

Context {F : Type}.

(** What [config.ini] names, the clock, and the libraries' answers. *)
Variable collection_name : string.
Variable now : datetime.
Variable dateparser_parse : string -> option datetime.
(** [model.encode(text, normalize_embeddings=True)] *)
Variable encode : string -> result (vector F).
(** [collection.load()]: [None] when the collection was loaded. *)
Variable collection_load : collection F -> option exn.
(** [collection.search(data, anns_field, param, limit)]: per query vector,
    the ids of the hits in rank order. *)
Variable collection_search :
  collection F -> list (vector F) -> Z -> Z -> result (list (list Z)).

(** A handle on a collection is its name. *)
Definition connect_to_milvus : M F string :=
  m ← gets milvus;
  match m !! collection_name with
  | None =>
      raise (ValueError ("Collection '" +:+ collection_name
                         +:+ "' does not exist in Milvus."))
  | Some c =>
      let collection := collection_name in
      try_except
        (match collection_load c with
         | Some e => raise e
         | None =>
             print ("Milvus collection '" +:+ collection_name
                    +:+ "' loaded into memory.")
         end)
        (fun e =>
           print ("Failed to load the collection '" +:+ collection_name
                  +:+ "': " +:+ str_exn e);;
           raise e);;
      mret collection
  end.

(** The row a [SELECT] of [fetch_filtered_articles_by_ids] yields:
    [(id, title, author, publication_date, abstract, keywords)]. *)
Definition fetched_row : Type :=
  (Z * string * option string * option date * option string
   * option string)%type.

Definition row_id (r : fetched_row) : Z := r.1.1.1.1.1.
Definition row_publication_date (r : fetched_row) : option date := r.1.1.2.

(** [articles LEFT JOIN article_summaries ON articles.id =
    article_summaries.article_id]: one row per matching summary, and one
    row with a NULL [keywords] for an article without summary.  Without
    ORDER BY the statement fixes no row order; the rows come in the order
    in which the tables hold them. *)
Definition left_join (arts : list article_row) (sums : list summary_row)
  : list fetched_row :=
  flat_map
    (fun a =>
       let row k := (a_id a, a_title a, a_author a, a_publication_date a,
                     a_abstract a, k) in
       match filter (fun s => s_article_id s = Some (a_id a)) sums with
       | [] => [row None]
       | matching => map (fun s => row (s_keywords s)) matching
       end)
    arts.

(** [articles.id IN (ids)] *)
Definition id_in (ids : list Z) (r : fetched_row) : bool :=
  bool_decide (row_id r ∈ ids).

(** [articles.publication_date BETWEEN start AND end]: a NULL date makes
    the condition NULL, and WHERE keeps only rows where it is true. *)
Definition between (range : date_range) (r : fetched_row) : bool :=
  match row_publication_date r with
  | None => false
  | Some d => (range.1 <=? d) && (d <=? range.2)
  end.

Definition fetch_filtered_articles_by_ids
    (ids : list Z) (date_range : option date_range) : M F (list fetched_row) :=
  match ids with
  | [] =>
      print "No article IDs to fetch.";;
      mret []
  | _ :: _ =>
      arts ← gets articles;
      sums ← gets article_summaries;
      let joined := left_join arts sums in
      mret
        match date_range with
        | Some range =>
            List.filter (fun r => id_in ids r && between range r) joined
        | None => List.filter (id_in ids) joined
        end
  end.

(** [results[0]] *)
Definition first_result (results : list (list Z)) : result (list Z) :=
  match results with
  | hits :: _ => Returned hits
  | [] => Raised (IndexError "list index out of range")
  end.

Definition search_articles (query : string) (nprobe limit : Z)
  : M F (list fetched_row) :=
  v ← lift (encode query);
  let query_embedding := [v] in
  collection ← connect_to_milvus;
  found ←
    try_except
      (m ← gets milvus;
       results ←
         lift (match m !! collection with
               | Some c => collection_search c query_embedding nprobe limit
               | None => Raised (LibraryError "collection not found")
               end);
       ids ← lift (first_result results);
       print ("Milvus returned IDs: " +:+ str_int_list ids);;
       mret (Some ids))
      (fun e =>
         print ("Milvus search error: " +:+ str_exn e);;
         mret None);
  match found with
  | None => mret []
  | Some ids =>
      date_range ← lift (parse_date_filter now dateparser_parse query);
      articles ← fetch_filtered_articles_by_ids ids date_range;
      match articles with
      | [] => print "No matching articles found in MySQL."
      | _ :: _ => mret tt
      end;;
      mret articles
  end.

End Search.

End milvus_search.

(** ** milvus_insert.py *)

(** The arithmetic of the embedding arrays: [of_float] is the array element
    a Python float is converted to when it multiplies an array, [mul] and
    [add] are the elementwise operations of the array's dtype. *)
Class Arith (F : Type) : Type :=
  { of_float : Q -> F;
    mul : F -> F -> F;
    add : F -> F -> F }.

Module milvus_insert.

#[local] Instance DataType_eq_dec : EqDecision DataType.
Proof. solve_decision. Defined.
#[local] Instance FieldSchema_eq_dec : EqDecision FieldSchema.
Proof. solve_decision. Defined.
#[local] Instance CollectionSchema_eq_dec : EqDecision CollectionSchema.
Proof. solve_decision. Defined.

Section Insert.

Context {F : Type} `{Arith F}.

Variable collection_name : string.
(** [model.encode(text, normalize_embeddings=True)]; the text of a NULL
    column is [None]. *)
Variable encode : option string -> result (vector F).
(** What the client answers to an insert of no rows at all. *)
Variable insert_nothing : result unit.

(** The schema [connect_to_milvus] declares. *)
Definition schema_768 : CollectionSchema :=
  mk_schema
    [ mk_field "embeddings" FLOAT_VECTOR {[ "dim" := 768 ]} false false;
      mk_field "id" INT64 ∅ true false ]
    "Collection for article embeddings".

(** [utility.drop_collection(name)] *)
Definition drop_collection (name : string) : M F unit :=
  m ← gets milvus;
  set_milvus (delete name m).

(** [Collection(name=name, schema=schema)]: creates the collection when the
    server has none of that name, and otherwise wants the schemas equal. *)
Definition Collection_with_schema (name : string) (sch : CollectionSchema)
  : M F string :=
  m ← gets milvus;
  match m !! name with
  | None => set_milvus (<[name := mk_collection sch []]> m);; mret name
  | Some c =>
      if decide (schema c = sch) then mret name
      else raise (LibraryError "The collection already exist, but the schema is not the same as the schema passed in.")
  end.

(** [field.params["dim"]] *)
Definition params_dim (field : FieldSchema) : result Z :=
  match params field !! "dim" with
  | Some d => Returned d
  | None => Raised (KeyError "dim")
  end.

(** The loop over [existing_fields]; [Some collection] is the early
    [return collection] of the repair branch. *)
Fixpoint validate_fields (schema : CollectionSchema)
    (existing_fields : list FieldSchema) : M F (option string) :=
  match existing_fields with
  | [] => mret None
  | field :: rest =>
      if String.eqb (field_name field) "embeddings" then
        dim ← lift (params_dim field);
        if negb (dim =? 768) then
          print ("Schema mismatch detected for field 'embeddings'. Expected dim=768, got dim="
                 +:+ str_int dim +:+ ".");;
          print "Dropping and recreating the collection.";;
          drop_collection collection_name;;
          collection ← Collection_with_schema collection_name schema;
          print ("Recreated collection: " +:+ collection_name);;
          mret (Some collection)
        else validate_fields schema rest
      else validate_fields schema rest
  end.

Definition connect_to_milvus : M F string :=
  let schema := schema_768 in
  m ← gets milvus;
  match m !! collection_name with
  | Some c =>
      let collection := collection_name in
      let existing_fields := fields (World.schema c) in
      repaired ← validate_fields schema existing_fields;
      match repaired with
      | Some collection' => mret collection'
      | None =>
          print ("Connected to existing collection: " +:+ collection_name
                 +:+ " with correct schema.");;
          mret collection
      end
  | None =>
      collection ← Collection_with_schema collection_name schema;
      print ("Created new collection: " +:+ collection_name);;
      mret collection
  end.

(** [w * v] and [u + v] on arrays.  All arrays here come from one model and
    have its output dimension, so the shapes agree. *)
Definition scale (w : Q) (v : vector F) : vector F := map (mul (of_float w)) v.
Definition vadd (u v : vector F) : vector F := zip_with add u v.

(** [weights[i]] *)
Definition index (weights : list Q) (i : nat) : result Q :=
  match weights !! i with
  | Some w => Returned w
  | None => Raised (IndexError "list index out of range")
  end.

Definition combine_embeddings
    (title_embedding abstract_embedding summary_embedding : vector F)
    (weights : list Q) : result (vector F) :=
  w0 ← index weights 0;
  w1 ← index weights 1;
  w2 ← index weights 2;
  mret (vadd (vadd (scale w0 title_embedding) (scale w1 abstract_embedding))
             (scale w2 summary_embedding)).

(** [collection.insert([embeddings, ids])]: the columns are matched to the
    schema's fields by position and checked against their types; the rows
    are appended.  Milvus keeps every inserted row: an insert does not look
    for an entity with the same primary key. *)
Definition column_check (sch : CollectionSchema)
    (embeddings : list (vector F)) (ids : list Z) : bool :=
  match fields sch with
  | [f_vec; f_id] =>
      match dtype f_vec, dtype f_id, params f_vec !! "dim" with
      | FLOAT_VECTOR, INT64, Some d =>
          negb (auto_id f_id)
          && forallb (fun v => Z.of_nat (length v) =? d) embeddings
          && (length embeddings =? length ids)%nat
      | _, _, _ => false
      end
  | _ => false
  end.

Definition Collection_insert (collection : string)
    (embeddings : list (vector F)) (ids : list Z) : M F unit :=
  m ← gets milvus;
  match m !! collection with
  | None => raise (LibraryError "collection not found")
  | Some c =>
      match embeddings, ids with
      | [], [] => lift insert_nothing
      | _, _ =>
          if column_check (schema c) embeddings ids then
            set_milvus
              (<[collection :=
                   mk_collection (schema c) (entities c ++ zip embeddings ids)]> m)
          else raise (LibraryError "The data doesn't match with schema fields.")
      end
  end.

(** An article as [fetch_article_data] selects it: [(id, title, abstract)]. *)
Definition article : Type := (Z * string * option string)%type.

Definition weights : list Q := [0.5; 0.3; 0.2]%Q.

(** The loop of [insert_weighted_embeddings] over [articles], with the two
    lists it appends to. *)
Fixpoint embed_articles (summaries : gmap Z (option string))
    (articles : list article) (embeddings : list (vector F)) (ids : list Z)
  : result (list (vector F) * list Z) :=
  match articles with
  | [] => Returned (embeddings, ids)
  | (article_id, title, abstract) :: rest =>
      let summary := default (Some "") (summaries !! article_id) in
      title_embedding ← encode (Some title);
      abstract_embedding ← encode abstract;
      summary_embedding ← encode summary;
      combined_embedding ←
        combine_embeddings title_embedding abstract_embedding
                           summary_embedding weights;
      embed_articles summaries rest
                     (embeddings ++ [combined_embedding]) (ids ++ [article_id])
  end.

Definition insert_weighted_embeddings
    (articles : list article) (summaries : gmap Z (option string)) : M F unit :=
  collection ← connect_to_milvus;
  '(embeddings, ids) ← lift (embed_articles summaries articles [] []);
  Collection_insert collection embeddings ids;;
  print ("Inserted " +:+ str_int (Z.of_nat (length ids))
         +:+ " articles into Milvus.").

End Insert.

End milvus_insert.

(** * The rest of the two scripts *)

(** ** milvus_insert.py: [fetch_article_data] and the script body *)

Module milvus_insert_main.

Section Main.

Context {F : Type} `{Arith F}.

Variable collection_name : string.
Variable encode : option string -> result (vector F).
Variable insert_nothing : result unit.

(** [{row[0]: row[1] for row in cursor.fetchall()}] over
    [SELECT article_id, summary FROM article_summaries]: a later row
    replaces the entry of an earlier one.  A row whose [article_id] is NULL
    makes the key [None]; the dictionary is only ever read at the id of an
    article, which is an int, so that entry is left out here. *)
Definition summaries_dict (rows : list summary_row) : gmap Z (option string) :=
  foldl (fun d row =>
           match s_article_id row with
           | Some i => <[i := s_summary row]> d
           | None => d
           end)
        ∅ rows.

Definition fetch_article_data
  : M F (list milvus_insert.article * gmap Z (option string)) :=
  arts ← gets articles;
  let articles := map (fun a => (a_id a, a_title a, a_abstract a)) arts in
  sums ← gets article_summaries;
  let summaries := summaries_dict sums in
  mret (articles, summaries).

(** [if __name__ == "__main__":] *)
Definition main : M F unit :=
  '(articles, summaries) ← fetch_article_data;
  milvus_insert.insert_weighted_embeddings collection_name encode
    insert_nothing articles summaries.

End Main.

End milvus_insert_main.

(** ** milvus_search.py: index creation, display, export, the script body

    These functions also touch what [world] does not hold: the index
    structure of a collection, the files written, and the lines the user
    types.  A [session] adds them to the world. *)

Module milvus_search_cli.

Record IndexParams : Type := mk_index_params
  { index_type : string;
    metric_type : string;
    nlist : Z }.

(** [article[2] or "No Authors"]: [None] and the empty string are false. *)
Definition py_or (value : option string) (otherwise : string) : string :=
  match value with
  | Some (String c r) => String c r
  | Some EmptyString | None => otherwise
  end.

(** [s[:n]] *)
Fixpoint slice_to (n : nat) (s : string) : string :=
  match n, s with
  | S n', String c r => String c (slice_to n' r)
  | _, _ => EmptyString
  end.

(** [s * n] *)
Fixpoint str_times (s : string) (n : nat) : string :=
  match n with
  | O => EmptyString
  | S n' => s +:+ str_times s n'
  end.

(** [s.strip()]: the characters [str.isspace] accepts are removed at both
    ends. *)
Fixpoint lstrip (s : string) : string :=
  match s with
  | String c r => if is_space c then lstrip r else s
  | EmptyString => EmptyString
  end.

Fixpoint rstrip (s : string) : string :=
  match s with
  | EmptyString => EmptyString
  | String c r =>
      match rstrip r with
      | EmptyString => if is_space c then EmptyString else String c EmptyString
      | String c' r' => String c (String c' r')
      end
  end.

Definition strip (s : string) : string := rstrip (lstrip s).

Definition newline : string := String (ascii_of_nat 10) EmptyString.

Section Cli.

Context {F : Type}.

Record session : Type := mk_session
  { base : world F;
    indexes : gmap string IndexParams;          (* index of a collection *)
    files : gmap string (list (list string));   (* rows given to [csv.writer] *)
    typed : nat -> string;                      (* the lines the user types *)
    consumed : nat }.                           (* how many were read *)

Definition T (A : Type) : Type := session -> session * result A.

#[export] Instance T_ret : MRet T := fun _ a s => (s, Returned a).
#[export] Instance T_bind : MBind T := fun _ _ f m s =>
  match m s with
  | (s', Returned a) => f a s'
  | (s', Raised e) => (s', Raised e)
  end.

(** A computation on the world, run in a session. *)
Definition in_world {A : Type} (m : M F A) : T A := fun s =>
  let '(w', r) := m (base s) in
  (mk_session w' (indexes s) (files s) (typed s) (consumed s), r).

Definition T_try_except {A : Type} (body : T A) (handler : exn -> T A) : T A :=
  fun s =>
    match body s with
    | (s', Returned a) => (s', Returned a)
    | (s', Raised e) => handler e s'
    end.

(** [input(prompt)]: the prompt goes to the terminal and the next typed
    line is returned. *)
Definition input (prompt : string) : T string := fun s =>
  (mk_session (printed (base s) [prompt]) (indexes s) (files s) (typed s)
              (S (consumed s)),
   Returned (typed s (consumed s))).

Variable collection_name : string.
Variable now : datetime.
Variable dateparser_parse : string -> option datetime.
Variable encode : string -> result (vector F).
Variable collection_load : collection F -> option exn.
Variable collection_search :
  collection F -> list (vector F) -> Z -> Z -> result (list (list Z)).
(** [collection.create_index(...)]: [None] when the index was built.
    [collection.has_index()] is answered from the session. *)
Variable create_index_fault : collection F -> option exn.
(** [open(filename, mode="w", ...)]: [None] when the file was opened. *)
Variable open_fault : string -> option exn.
(** [str(d)] for a [datetime.date]. *)
Variable str_date : date -> string.

Definition index_params : IndexParams := mk_index_params "IVF_FLAT" "L2" 128.

Definition create_index_for_collection : T unit :=
  m ← in_world (gets milvus);
  match m !! collection_name with
  | None =>
      in_world (raise (ValueError ("Collection '" +:+ collection_name
                                   +:+ "' does not exist in Milvus.")))
  | Some c =>
      T_try_except
        (fun s =>
           match indexes s !! collection_name with
           | Some _ =>
               in_world
                 (print ("Index already exists for collection '"
                         +:+ collection_name
                         +:+ "'. Skipping index creation.")) s
           | None =>
               match create_index_fault c with
               | Some e => (s, Raised e)
               | None =>
                   in_world
                     (print ("Index created successfully for collection '"
                             +:+ collection_name +:+ "'."))
                     (mk_session (base s)
                                 (<[collection_name := index_params]> (indexes s))
                                 (files s) (typed s) (consumed s))
               end
           end)
        (fun e =>
           in_world (print ("Failed to create index: " +:+ str_exn e));;
           in_world (raise e))
  end.

(** The loop body of [display_results]. *)
Definition display_article (article : milvus_search.fetched_row) : M F unit :=
  let '(id, title, author, publication_date, abstract, keywords) := article in
  print ("ID: " +:+ str_int id);;
  print ("Title: " +:+ title);;
  print ("Authors: " +:+ py_or author "No Authors");;
  print ("Date: " +:+ match publication_date with
                      | Some d => str_date d
                      | None => "No Date"
                      end);;
  print ("Abstract: " +:+ match abstract with
                          | Some (String c r) =>
                              slice_to 100 (String c r) +:+ "..."
                          | Some EmptyString | None => "No Summary Available"
                          end);;
  print ("Keywords: " +:+ py_or keywords "No Keywords");;
  print (str_times "-" 80).

Fixpoint display_articles (articles : list milvus_search.fetched_row)
  : M F unit :=
  match articles with
  | [] => mret tt
  | article :: rest => display_article article;; display_articles rest
  end.

Definition display_results (articles : list milvus_search.fetched_row)
    (display_type : string) : M F unit :=
  match articles with
  | [] => print "No articles to display."
  | _ :: _ =>
      print (newline +:+ "--- Search Results ---" +:+ newline);;
      display_articles articles
  end.

(** The row [export_to_csv] hands to [writer.writerow] for an article; the
    writer turns the id and the date into text with [str]. *)
Definition csv_row (article : milvus_search.fetched_row) : list string :=
  let '(id, title, author, publication_date, abstract, keywords) := article in
  [ str_int id;
    title;
    py_or author "No Authors";
    match publication_date with Some d => str_date d | None => "No Date" end;
    py_or abstract "No Summary Available";
    py_or keywords "No Keywords" ].

Definition csv_header : list string :=
  ["ID"; "Title"; "Authors"; "Date"; "Abstract"; "Keywords"].

Definition export_to_csv (articles : list milvus_search.fetched_row)
    (filename : string) : T unit :=
  match articles with
  | [] => in_world (print "No articles to export.")
  | _ :: _ =>
      match open_fault filename with
      | Some e => in_world (raise e)
      | None =>
          (fun s =>
             (mk_session (base s) (indexes s)
                (<[filename := csv_header :: map csv_row articles]> (files s))
                (typed s) (consumed s),
              Returned tt));;
          in_world (print ("Results exported to " +:+ filename))
      end
  end.

(** [if __name__ == "__main__":] *)
Definition main : T unit :=
  create_index_for_collection;;
  query ← input "Enter your query: ";
  answer ← input "What would you like to see? (all, titles, keywords): ";
  let display_type := lower (strip answer) in
  results ← in_world
    (milvus_search.search_articles collection_name now dateparser_parse
       encode collection_load collection_search query 20 10);
  match results with
  | _ :: _ =>
      in_world (display_results results display_type);;
      answer ← input "Would you like to export the results to a CSV file? (yes/no): ";
      let export := lower (strip answer) in
      if String.eqb export "yes" then
        answer ← input "Enter filename (default: results.csv): ";
        let filename :=
          match strip answer with
          | EmptyString => "results.csv"
          | String c r => String c r
          end in
        export_to_csv results filename
      else mret tt
  | [] => in_world (print "No articles found.")
  end.

End Cli.

Arguments session F : clear implicits.
Arguments T F A : clear implicits.

End milvus_search_cli.

(** * Vocabulary of the statements *)

(** The shape every rule of [parse_date_filter] ends in: a window of
    [days] days that closes today. *)
Definition window (now : datetime) (days : result Z)
  : result (option date_range) :=
  td ← days;
  start ← datetime_sub now td;
  mret (Some (date_of start, date_of now)).

Section Vocabulary.

Context {F : Type}.

(** The rows a fetch selects, in the order of the joined tables. *)
Definition selected (w : world F) (ids : list Z) (range : option date_range)
  : list milvus_search.fetched_row :=
  List.filter
    (fun r => milvus_search.id_in ids r
              && match range with
                 | Some rg => milvus_search.between rg r
                 | None => true
                 end)
    (milvus_search.left_join (articles w) (article_summaries w)).

(** The world once [collection_name] holds a fresh, empty collection of the
    declared schema and [lines] were printed. *)
Definition fresh_world (collection_name : string) (w : world F)
    (lines : list string) : world F :=
  mk_world
    (<[collection_name := mk_collection milvus_insert.schema_768 []]>
       (milvus w))
    (articles w) (article_summaries w) (stdout w ++ lines).

(** The world after [rows] were appended to the collection [c] and the
    closing line was printed. *)
Definition indexed_world (collection_name : string) (w : world F)
    (c : collection F) (rows : list (vector F * Z)) : world F :=
  printed
    (mk_world
       (<[collection_name := mk_collection (schema c) (entities c ++ rows)]>
          (milvus w))
       (articles w) (article_summaries w) (stdout w))
    ["Inserted " +:+ str_int (Z.of_nat (length rows))
     +:+ " articles into Milvus."].

Definition article_id (art : milvus_insert.article) : Z := art.1.1.

(** The three texts of an article that go to the embedder. *)
Definition texts (summaries : gmap Z (option string))
    (art : milvus_insert.article) : list (option string) :=
  [Some art.1.2; art.2; default (Some "") (summaries !! art.1.1)].

(** [v] is the fused embedding the loop computes for [art]. *)
Definition fused_for `{Arith F} (encode : option string -> result (vector F))
    (summaries : gmap Z (option string)) (art : milvus_insert.article)
    (v : vector F) : Prop :=
  exists t a s,
    encode (Some art.1.2) = Returned t
    /\ encode art.2 = Returned a
    /\ encode (default (Some "") (summaries !! art.1.1)) = Returned s
    /\ milvus_insert.combine_embeddings t a s milvus_insert.weights
       = Returned v.

End Vocabulary.

(** Exact arithmetic on rationals. *)
Definition exact_arith : Arith Q :=
  {| of_float q := q; mul := Qmult; add := Qplus |}.

(** float32 arithmetic in the standard model of rounding: an operation
    returns its exact result rounded by [rnd], and a Python float becomes
    an array element through [cast]. *)
Definition rounded_arith (cast rnd : R -> R) : Arith R :=
  {| of_float q := cast (Q2R q);
     mul x y := rnd (x * y)%R;
     add x y := rnd (x + y)%R |}.

(** ** Example worlds *)

(** A store of three undated articles, held in the order of their ids, and a
    vector index whose search ranks them 5, 2, 9. *)
Module RankExample.

Definition doc (i : Z) (t : string) : article_row :=
  mk_article i t (Some "A. Author") None (Some "An abstract.").

Definition store : world Z :=
  mk_world {[ "articles" := mk_collection (mk_schema [] "") [] ]}
           [doc 2 "two"; doc 5 "five"; doc 9 "nine"] [] [].

Definition search (w : world Z) :=
  milvus_search.search_articles "articles" (mk_datetime 739000 0)
    (fun _ => None) (fun _ => Returned []) (fun _ => None)
    (fun _ _ _ _ => Returned [[5; 2; 9]])
    "tumour growth" 20 10 w.

End RankExample.

(** A server without collections, exact rational arithmetic, and an
    embedder that answers the zero vector but fails on the text "bad". *)
Module IndexExample.

#[export] Existing Instance exact_arith.

Definition empty_server : world Q := mk_world ∅ [] [] [].

Definition encode (text : option string) : result (vector Q) :=
  match text with
  | Some "bad" => Raised (LibraryError "encoding fault")
  | _ => Returned (repeat 0%Q 768)
  end.

Definition index_batch :=
  milvus_insert.insert_weighted_embeddings "articles" encode (Returned tt).

Definition batch_1 : list milvus_insert.article := [(1, "a title", Some "an abstract")].

Definition batch_bad : list milvus_insert.article :=
  [(1, "bad", Some "first abstract"); (2, "good", Some "second abstract")].

End IndexExample.

(** An embedder that answers every text with the first unit vector, on a
    server without collections, in arithmetic that rounds nothing. *)
Module FusionExample.

Definition encode (text : option string) : result (vector R) :=
  Returned (1%R :: repeat 0%R 767).

Definition empty_server : world R := mk_world ∅ [] [] [].

Definition batch : list milvus_insert.article :=
  [(1, "a title", Some "an abstract")].

End FusionExample.

(** Unfolds the plumbing of [M] so that a run on a world computes. *)
Ltac run_M :=
  unfold mbind, M_bind, mret, M_ret, gets, lift, raise, print, set_milvus,
    try_except; simpl.

(** * Vocabulary of the further statements *)

(** The digits of a string, as [str.isdigit] on ASCII sees them. *)
Fixpoint all_digits (s : string) : bool :=
  match s with
  | EmptyString => true
  | String c r => is_digit c && all_digits r
  end.

(** The decimal numeral of [n], without leading zeros: [str(n)]. *)
Definition digit_char (d : nat) : ascii := ascii_of_nat (48 + d).

Fixpoint decimal_from (fuel n : nat) (acc : string) : string :=
  let acc' := String (digit_char (n mod 10)) acc in
  match fuel with
  | O => acc'
  | S fuel' =>
      if (n <? 10)%nat then acc' else decimal_from fuel' (n / 10) acc'
  end.

Definition decimal (n : nat) : string := decimal_from n n EmptyString.

(** [s] starts with a match of the pattern whose second group is [ds] and
    whose third group, lower-cased, is [unit]. *)
Definition pattern_at (s ds unit : string) : Prop :=
  exists (w : string) (sp1 sp2 : ascii) (u rest : string),
    s = w +:+ String sp1 (ds +:+ String sp2 (u +:+ rest))
    /\ In (lower w) ["last"; "past"]
    /\ is_space sp1 = true
    /\ ds <> EmptyString /\ all_digits ds = true
    /\ is_space sp2 = true
    /\ lower u = unit /\ In unit ["days"; "weeks"; "months"].

(** A computation that changes nothing in the world but the terminal. *)
Definition only_prints {F A : Type} (m : M F A) : Prop :=
  forall w, exists lines, (m w).1 = printed w lines.

(** The rows of the join that carry the fields of [a] with keywords [k]. *)
Definition row_of (a : article_row) (k : option string)
  : milvus_search.fetched_row :=
  (a_id a, a_title a, a_author a, a_publication_date a, a_abstract a, k).

(** The session after some more lines went to the terminal. *)
Definition session_printed {F : Type} (s : milvus_search_cli.session F)
    (lines : list string) : milvus_search_cli.session F :=
  milvus_search_cli.mk_session
    (printed (milvus_search_cli.base s) lines)
    (milvus_search_cli.indexes s) (milvus_search_cli.files s)
    (milvus_search_cli.typed s) (milvus_search_cli.consumed s).

(** The seven lines [display_results] prints for one article. *)
Definition article_lines (str_date : date -> string)
    (article : milvus_search.fetched_row) : list string :=
  let '(id, title, author, publication_date, abstract, keywords) := article in
  [ "ID: " +:+ str_int id;
    "Title: " +:+ title;
    "Authors: " +:+ milvus_search_cli.py_or author "No Authors";
    "Date: " +:+ match publication_date with
                 | Some d => str_date d
                 | None => "No Date"
                 end;
    "Abstract: " +:+ match abstract with
                     | Some (String c r) => milvus_search_cli.slice_to 100 (String c r) +:+ "..."
                     | Some EmptyString | None => "No Summary Available"
                     end;
    "Keywords: " +:+ milvus_search_cli.py_or keywords "No Keywords";
    milvus_search_cli.str_times "-" 80 ].

(** The file name the script exports to, from the line the user typed. *)
Definition chosen_filename (answer : string) : string :=
  match milvus_search_cli.strip answer with
  | EmptyString => "results.csv"
  | String c r => String c r
  end.

(** The articles as [fetch_article_data] hands them on. *)
Definition selected_columns (arts : list article_row)
  : list milvus_insert.article :=
  map (fun a => (a_id a, a_title a, a_abstract a)) arts.

(** A computation that leaves the MySQL tables and every collection but
    [name] as they are. *)
Definition confined_to {F A : Type} (name : string) (m : M F A) : Prop :=
  forall w,
    articles (m w).1 = articles w
    /\ article_summaries (m w).1 = article_summaries w
    /\ forall other, other <> name ->
                     milvus (m w).1 !! other = milvus w !! other.

(** ** Further example worlds *)

(** A session of the search script on the store of [RankExample]: the
    user asks for "tumour growth", wants everything shown, answers
    " YES " to the export and leaves the file name blank. *)
Module CliExample.

Import milvus_search_cli.

Definition typed_lines (n : nat) : string :=
  match n with
  | 0%nat => "tumour growth"
  | 1%nat => " All "
  | 2%nat => " YES "
  | _ => "  "
  end.

Definition start : session Z :=
  mk_session RankExample.store ∅ ∅ typed_lines 0.

Definition indexed : session Z :=
  mk_session
    (printed RankExample.store
       ["Index created successfully for collection 'articles'."])
    {[ "articles" := index_params ]} ∅ typed_lines 0.

Definition str_date (d : date) : string := pretty d.

Definition rows : list milvus_search.fetched_row :=
  [row_of (RankExample.doc 2 "two") None;
   row_of (RankExample.doc 5 "five") None;
   row_of (RankExample.doc 9 "nine") None].

Definition script : T Z unit :=
  main "articles" (mk_datetime 739000 0) (fun _ => None)
    (fun _ => Returned []) (fun _ => None)
    (fun _ _ _ _ => Returned [[5; 2; 9]])
    (fun _ => None) (fun _ => None) str_date.

End CliExample.

(** A store with two articles and summaries for the first, and a server
    whose collection was declared with dimension 512. *)
Module TableExample.

Definition table : world Q :=
  mk_world ∅
    [RankExample.doc 2 "two"; RankExample.doc 5 "five"]
    [mk_summary 1 (Some 2) (Some "first summary") (Some "tumour");
     mk_summary 2 (Some 2) (Some "second summary") (Some "cells")]
    [].

Definition field_512 : FieldSchema :=
  mk_field "embeddings" FLOAT_VECTOR {[ "dim" := 512 ]} false false.

Definition field_id : FieldSchema := mk_field "id" INT64 ∅ true false.

Definition old_collection : collection Q :=
  mk_collection (mk_schema [field_512; field_id] "an older layout")
                [(repeat 0%Q 512, 7)].

Definition old_server : world Q :=
  mk_world {[ "articles" := old_collection ]} [] [] [].

Definition field_plain : FieldSchema :=
  mk_field "embeddings" VARCHAR ∅ false false.

(** A collection whose vector field declares dimension 512 and is called
    "vector", with one stored entity. *)
Definition field_vector_512 : FieldSchema :=
  mk_field "vector" FLOAT_VECTOR {[ "dim" := 512 ]} false false.

Definition renamed_collection : collection Q :=
  mk_collection (mk_schema [field_vector_512; field_id] "another layout")
                [(repeat 0%Q 512, 7)].

Definition renamed_server : world Q :=
  mk_world {[ "articles" := renamed_collection ]} [] [] [].

Definition plain_server : world Q :=
  mk_world {[ "articles" :=
                mk_collection (mk_schema [field_id; field_plain] "") [] ]}
           [] [] [].

End TableExample.

(** * Properties *)

(** ** The date-range extractor *)

Section DateFilterFacts.

Variable now : datetime.
Variable dateparser_parse : string -> option datetime.

Lemma window_returns (days : result Z) (r : option date_range) :
  window now days = Returned r ->
  exists td, days = Returned td /\ 1 <= date_of now - td <= MAXORDINAL
             /\ r = Some (date_of now - td, date_of now).
Proof.
  unfold window. destruct days as [td|e]; simpl; [|discriminate].
  unfold datetime_sub.
  destruct ((1 <=? ordinal now - td) && (ordinal now - td <=? MAXORDINAL))
    eqn:Hrange; simpl; [|discriminate].
  intros [= <-]. exists td. apply andb_true_iff in Hrange as [H1 H2].
  apply Z.leb_le in H1, H2. unfold date_of. auto.
Qed.

Lemma window_days (d : Z) :
  0 <= d <= 999999999 -> d < ordinal now <= MAXORDINAL ->
  window now (timedelta_days d)
  = Returned (Some (date_of now - d, date_of now)).
Proof.
  intros Hd Hnow. unfold window, timedelta_days.
  replace (Z.abs d <=? 999999999) with true by (symmetry; apply Z.leb_le; lia).
  simpl. unfold datetime_sub.
  replace ((1 <=? ordinal now - d) && (ordinal now - d <=? MAXORDINAL))
    with true; [reflexivity|].
  symmetry. apply andb_true_iff. split; apply Z.leb_le; lia.
Qed.

Lemma parse_date_filter_unfold (query : string) :
  parse_date_filter now dateparser_parse query =
  if contains "last week" (lower query) then window now (timedelta_days 7)
  else if contains "last month" (lower query) then window now (timedelta_days 30)
  else if contains "last" (lower query) || contains "past" (lower query) then
    match re_search query with
    | Some (group2, group3) =>
        match int group2 with
        | Returned duration =>
            if String.eqb group3 "days"
            then window now (timedelta_days duration)
            else if String.eqb group3 "weeks"
                 then window now (timedelta_weeks duration)
            else if String.eqb group3 "months"
                 then window now (timedelta_days (30 * duration))
            else Returned None
        | Raised e => Raised e
        end
    | None => Returned None
    end
  else
    match dateparser_parse query with
    | Some parsed_date => Returned (Some (date_of parsed_date, date_of now))
    | None => Returned None
    end.
Proof. reflexivity. Qed.

End DateFilterFacts.

(** C10.  Whatever the query and the clock, a range that
    [parse_date_filter] returns ends on today's date: the extractor cannot
    express a window that closes before (or after) the current day. *)
Theorem parse_date_filter_ends_today
    (now : datetime) (dateparser_parse : string -> option datetime)
    (query : string) (range_start range_end : date) :
  parse_date_filter now dateparser_parse query
    = Returned (Some (range_start, range_end)) ->
  range_end = date_of now.
Proof.
  rewrite parse_date_filter_unfold.
  assert (Hw : forall days,
             window now days = Returned (Some (range_start, range_end)) ->
             range_end = date_of now).
  { intros days Hd. apply window_returns in Hd as (td & _ & _ & Heq).
    congruence. }
  repeat match goal with
         | |- context [if ?b then _ else _] => destruct b
         | |- context [match ?o with Some _ => _ | None => _ end] =>
             destruct o as [[? ?] | ] || destruct o
         | |- context [match int ?g with Returned _ => _ | Raised _ => _ end] =>
             destruct (int g)
         end; eauto; try discriminate; congruence.
Qed.

Lemma parse_date_filter_ends_today_witness :
  parse_date_filter (mk_datetime 739000 0) (fun _ => None)
                    "oncology trials from the past 3 weeks"
    = Returned (Some (738979, 739000))
  /\ 739000 = date_of (mk_datetime 739000 0).
Proof.
  split; [reflexivity|].
  apply (parse_date_filter_ends_today (mk_datetime 739000 0) (fun _ => None)
           "oncology trials from the past 3 weeks" 738979 739000).
  reflexivity.
Defined.

(** C2, as the code has it.  When rules 1 to 3 produce no range, the
    free-form parser decides the result only for a query that contains
    neither "last" nor "past" (in any letter case); a query that contains
    one of the two words gets no range, and the parser is not consulted
    for it. *)
Theorem parse_date_filter_free_form
    (now : datetime) (dateparser_parse : string -> option datetime)
    (query : string) :
  contains "last week" (lower query) = false ->
  contains "last month" (lower query) = false ->
  re_search query = None ->
  parse_date_filter now dateparser_parse query
  = Returned
      (if contains "last" (lower query) || contains "past" (lower query)
       then None
       else match dateparser_parse query with
            | Some parsed_date => Some (date_of parsed_date, date_of now)
            | None => None
            end).
Proof.
  intros Hweek Hmonth Hpattern.
  rewrite parse_date_filter_unfold, Hweek, Hmonth, Hpattern.
  destruct (contains "last" (lower query) || contains "past" (lower query));
    [reflexivity|].
  destruct (dateparser_parse query); reflexivity.
Qed.

Lemma parse_date_filter_free_form_witness :
  parse_date_filter (mk_datetime 739000 0)
                    (fun _ => Some (mk_datetime 737425 0))
                    "immunotherapy since January 2020"
  = Returned (Some (737425, 739000)).
Proof.
  apply (parse_date_filter_free_form
           (mk_datetime 739000 0) (fun _ => Some (mk_datetime 737425 0))
           "immunotherapy since January 2020");
    reflexivity.
Defined.

(** C2 fails as stated: "the last trials of January 2020" triggers none of
    rules 1 to 3 and the free-form parser recovers a date from it, yet the
    result is no range instead of [[parsed_date, now]]. *)
Lemma parse_date_filter_bare_last_not_parsed :
  ~ (forall (now : datetime) (dateparser_parse : string -> option datetime)
            (query : string),
        contains "last week" (lower query) = false ->
        contains "last month" (lower query) = false ->
        re_search query = None ->
        parse_date_filter now dateparser_parse query
        = Returned match dateparser_parse query with
                   | Some parsed_date =>
                       Some (date_of parsed_date, date_of now)
                   | None => None
                   end).
Proof.
  intros Hclaim.
  specialize (Hclaim (mk_datetime 739000 0)
                     (fun _ => Some (mk_datetime 737425 0))
                     "the last trials of January 2020"
                     eq_refl eq_refl eq_refl).
  vm_compute in Hclaim. discriminate.
Qed.

(** ** The hybrid query engine *)

Section SearchFacts.

Import milvus_search.

Context {F : Type}.

Lemma left_join_sound (arts : list article_row) (sums : list summary_row)
    (r : fetched_row) :
  In r (left_join arts sums) ->
  exists a k, In a arts
    /\ r = (a_id a, a_title a, a_author a, a_publication_date a,
            a_abstract a, k).
Proof.
  unfold left_join. rewrite in_flat_map. intros (a & Ha & Hr).
  exists a.
  destruct (filter (fun s => s_article_id s = Some (a_id a)) sums) as [|s l].
  - destruct Hr as [<-|[]]. eauto.
  - apply in_map_iff in Hr as (s' & <- & _). eauto.
Qed.

Lemma left_join_complete (arts : list article_row) (sums : list summary_row)
    (a : article_row) :
  In a arts ->
  exists k, In (a_id a, a_title a, a_author a, a_publication_date a,
                a_abstract a, k) (left_join arts sums).
Proof.
  intros Ha. unfold left_join.
  destruct (filter (fun s => s_article_id s = Some (a_id a)) sums) as [|s l]
    eqn:Hmatch.
  - exists None. apply in_flat_map. exists a. rewrite Hmatch. simpl. auto.
  - exists (s_keywords s). apply in_flat_map. exists a. rewrite Hmatch.
    simpl. auto.
Qed.

Lemma id_in_true (ids : list Z) (r : fetched_row) :
  id_in ids r = true <-> In (row_id r) ids.
Proof.
  unfold id_in. rewrite bool_decide_eq_true. apply list_elem_of_In.
Qed.

Lemma between_true (range : date_range) (r : fetched_row) :
  between range r = true <->
  exists d, row_publication_date r = Some d /\ range.1 <= d <= range.2.
Proof.
  unfold between. destruct (row_publication_date r) as [d|].
  - rewrite andb_true_iff, !Z.leb_le. split.
    + intros [? ?]. exists d. auto.
    + intros (d' & [= <-] & ?). lia.
  - split; [discriminate|]. intros (d & Hd & _). discriminate.
Qed.

Lemma fetch_returns (w : world F) (ids : list Z) (range : option date_range) :
  exists w', fetch_filtered_articles_by_ids ids range w
             = (w', Returned (selected w ids range))
             /\ milvus w' = milvus w /\ articles w' = articles w
             /\ article_summaries w' = article_summaries w
             /\ (ids <> [] -> w' = w).
Proof.
  unfold fetch_filtered_articles_by_ids, selected.
  destruct ids as [|i ids].
  - assert (Hnone : forall l : list fetched_row,
               List.filter
                 (fun r => id_in [] r
                           && match range with
                              | Some rg => between rg r
                              | None => true
                              end) l = []).
    { induction l as [|r l IH]; [reflexivity|]. simpl.
      replace (id_in [] r) with false; [exact IH|].
      symmetry. apply not_true_is_false. rewrite id_in_true. intros []. }
    rewrite Hnone. eexists. split; [reflexivity|].
    simpl. repeat split; congruence.
  - exists w. split; [|auto]. run_M. f_equal. f_equal.
    destruct range as [rg|]; [reflexivity|].
    apply List.filter_ext. intros r. now rewrite andb_true_r.
Qed.

End SearchFacts.

(** C9.  The relational fetch, per candidate document: with a date range
    the document is returned exactly when its [publication_date] is not
    null and lies in the range, both ends included; without a date range
    every candidate is returned, a null [publication_date] included.  Every
    returned row belongs to a candidate document. *)
Theorem fetch_applies_date_range {F : Type}
    (w : world F) (ids : list Z) (range : option date_range) :
  exists w' rows,
    milvus_search.fetch_filtered_articles_by_ids ids range w
    = (w', Returned rows)
    /\ (forall a, In a (articles w) -> In (a_id a) ids ->
          (exists k, In (a_id a, a_title a, a_author a, a_publication_date a,
                         a_abstract a, k) rows)
          <-> match range with
              | Some (range_start, range_end) =>
                  exists d, a_publication_date a = Some d
                            /\ range_start <= d <= range_end
              | None => True
              end)
    /\ (forall r, In r rows ->
          exists a k, In a (articles w) /\ In (a_id a) ids
            /\ r = (a_id a, a_title a, a_author a, a_publication_date a,
                    a_abstract a, k)).
Proof.
  destruct (fetch_returns w ids range) as (w' & Hrun & _).
  exists w', (selected w ids range). split; [exact Hrun|].
  unfold selected. split.
  - intros a Ha Hid. split.
    + intros (k & Hk). apply filter_In in Hk as (_ & Hkeep).
      apply andb_true_iff in Hkeep as (_ & Hdate).
      destruct range as [[range_start range_end]|]; [|exact I].
      apply between_true in Hdate. exact Hdate.
    + intros Hdate.
      destruct (left_join_complete (articles w) (article_summaries w) a Ha)
        as (k & Hk).
      exists k. apply filter_In. split; [exact Hk|].
      apply andb_true_iff. split; [apply id_in_true; exact Hid|].
      destruct range as [[range_start range_end]|]; [|reflexivity].
      apply between_true. exact Hdate.
  - intros r Hr. apply filter_In in Hr as (Hjoin & Hkeep).
    apply andb_true_iff in Hkeep as (Hid & _). apply id_in_true in Hid.
    apply left_join_sound in Hjoin as (a & k & Ha & ->).
    exists a, k. auto.
Qed.

Section SearchRuns.

Import milvus_search.

Context {F : Type}.
Variable collection_name : string.
Variable now : datetime.
Variable dateparser_parse : string -> option datetime.
Variable encode : string -> result (vector F).
Variable collection_load : collection F -> option exn.
Variable collection_search :
  collection F -> list (vector F) -> Z -> Z -> result (list (list Z)).

Let search := search_articles collection_name now dateparser_parse encode
                collection_load collection_search.

Lemma printed_printed (w : world F) (l1 l2 : list string) :
  printed (printed w l1) l2 = printed w (l1 ++ l2).
Proof. unfold printed. simpl. now rewrite <- app_assoc. Qed.

(** The run of [search_articles] when every library call succeeds. *)
Lemma search_articles_success (w : world F) (query : string) (nprobe limit : Z)
    (v : vector F) (c : collection F) (ids : list Z) (more : list (list Z))
    (range : option date_range) :
  encode query = Returned v ->
  milvus w !! collection_name = Some c ->
  collection_load c = None ->
  collection_search c [v] nprobe limit = Returned (ids :: more) ->
  parse_date_filter now dateparser_parse query = Returned range ->
  exists w', search query nprobe limit w
             = (w', Returned (selected w ids range)).
Proof.
  intros Henc Hcoll Hload Hsearch Hrange.
  unfold search, search_articles, connect_to_milvus.
  run_M. rewrite Henc, Hcoll, Hload. simpl. rewrite Hcoll, Hsearch. simpl.
  rewrite Hrange.
  set (w1 := printed (printed w _) _).
  destruct (fetch_returns w1 ids range) as (w2 & Hrun & _).
  rewrite Hrun. change (selected w1 ids range) with (selected w ids range).
  destruct (selected w ids range); eexists; reflexivity.
Qed.

(** The selection looks at the candidate ids as a set. *)
Lemma selected_permutation (w : world F) (ids ids' : list Z)
    (range : option date_range) :
  Permutation ids ids' -> selected w ids' range = selected w ids range.
Proof.
  intros Hperm. unfold selected. apply List.filter_ext. intros r.
  f_equal. apply eq_true_iff_eq. rewrite !id_in_true.
  split; apply Permutation_in; [symmetry|]; exact Hperm.
Qed.

(** C1, as the code has it.  When the vector search returns the ids
    [ids], [search_articles] returns the rows of the relational fetch as
    the fetch delivered them: the joined rows whose id is among [ids] and
    that pass the date filter, in the order of the relational store.  The
    rank order of [ids] has no part in it: any other ranking of the same
    ids gives the same list. *)
Theorem search_articles_store_order
    (w : world F) (query : string) (nprobe limit : Z)
    (v : vector F) (c : collection F) (ids : list Z) (more : list (list Z))
    (range : option date_range) :
  encode query = Returned v ->
  milvus w !! collection_name = Some c ->
  collection_load c = None ->
  collection_search c [v] nprobe limit = Returned (ids :: more) ->
  parse_date_filter now dateparser_parse query = Returned range ->
  (search query nprobe limit w).2 = Returned (selected w ids range)
  /\ forall ids', Permutation ids ids' ->
                  selected w ids' range = selected w ids range.
Proof.
  intros Henc Hcoll Hload Hsearch Hrange. split.
  - destruct (search_articles_success w query nprobe limit v c ids more range)
      as (w' & ->); auto.
  - intros ids'. apply selected_permutation.
Qed.

(** C7, as the code has it.  For a query the embedder accepts: a missing
    collection makes [search_articles] raise [ValueError]; a failing load
    is reported on the terminal and raised again to the caller; only a
    fault of the vector search itself is caught, reported on the terminal
    and turned into an empty result. *)
Theorem search_articles_faults
    (w : world F) (query : string) (nprobe limit : Z) (v : vector F) :
  encode query = Returned v ->
  (milvus w !! collection_name = None ->
   search query nprobe limit w
   = (w, Raised (ValueError ("Collection '" +:+ collection_name
                             +:+ "' does not exist in Milvus."))))
  /\ (forall c e,
        milvus w !! collection_name = Some c ->
        collection_load c = Some e ->
        search query nprobe limit w
        = (printed w ["Failed to load the collection '" +:+ collection_name
                      +:+ "': " +:+ str_exn e],
           Raised e))
  /\ (forall c e,
        milvus w !! collection_name = Some c ->
        collection_load c = None ->
        collection_search c [v] nprobe limit = Raised e ->
        search query nprobe limit w
        = (printed w ["Milvus collection '" +:+ collection_name
                      +:+ "' loaded into memory.";
                      "Milvus search error: " +:+ str_exn e],
           Returned [])).
Proof.
  intros Henc. unfold search, search_articles, connect_to_milvus.
  split; [|split].
  - intros Hcoll. run_M. rewrite Henc, Hcoll. reflexivity.
  - intros c e Hcoll Hload. run_M. rewrite Henc, Hcoll, Hload. reflexivity.
  - intros c e Hcoll Hload Hsearch. run_M.
    rewrite Henc, Hcoll, Hload. simpl. rewrite Hcoll, Hsearch. simpl.
    rewrite printed_printed. reflexivity.
Qed.

End SearchRuns.

(** C1 fails as stated: the rows come back in the order 2, 5, 9 of the
    store, not in the rank order 5, 2, 9 of the vector search. *)
Lemma search_articles_ignores_rank :
  exists rows,
    (RankExample.search RankExample.store).2 = Returned rows
    /\ map milvus_search.row_id rows = [2; 5; 9]
    /\ map milvus_search.row_id rows <> [5; 2; 9].
Proof.
  eexists. split; [vm_compute; reflexivity|]. split; [reflexivity|].
  discriminate.
Qed.

Lemma search_articles_store_order_witness :
  (RankExample.search RankExample.store).2
  = Returned (selected RankExample.store [5; 2; 9] None).
Proof.
  apply (proj1 (search_articles_store_order
                  "articles" (mk_datetime 739000 0) (fun _ => None)
                  (fun _ => Returned []) (fun _ => None)
                  (fun _ _ _ _ => Returned [[5; 2; 9]])
                  RankExample.store "tumour growth" 20 10 []
                  (mk_collection (mk_schema [] "") []) [5; 2; 9] [] None
                  eq_refl eq_refl eq_refl eq_refl eq_refl)).
Defined.

(** C7 fails as stated: with no collection on the server the call raises
    instead of returning the empty list. *)
Lemma search_articles_raises_without_collection :
  milvus_search.search_articles (F := Z) "articles" (mk_datetime 739000 0)
    (fun _ => None) (fun _ => Returned []) (fun _ => None)
    (fun _ _ _ _ => Returned [[5; 2; 9]])
    "tumour growth" 20 10 (mk_world ∅ [] [] [])
  = (mk_world ∅ [] [] [],
     Raised (ValueError "Collection 'articles' does not exist in Milvus.")).
Proof. vm_compute. reflexivity. Qed.

Lemma search_articles_faults_witness :
  milvus_search.search_articles (F := Z) "articles" (mk_datetime 739000 0)
    (fun _ => None) (fun _ => Returned [])
    (fun _ => None)
    (fun _ _ _ _ => Raised (LibraryError "timeout"))
    "tumour growth" 20 10 RankExample.store
  = (printed RankExample.store
       ["Milvus collection 'articles' loaded into memory.";
        "Milvus search error: timeout"],
     Returned []).
Proof.
  apply (proj2 (proj2 (search_articles_faults
                  "articles" (mk_datetime 739000 0) (fun _ => None)
                  (fun _ => Returned []) (fun _ => None)
                  (fun _ _ _ _ => Raised (LibraryError "timeout"))
                  RankExample.store "tumour growth" 20 10 [] eq_refl))
           (mk_collection (mk_schema [] "") []) (LibraryError "timeout")
           eq_refl eq_refl eq_refl).
Defined.

(** ** The fusion indexer *)

Section SchemaLifecycle.

Import milvus_insert.

Context {F : Type}.
Variable collection_name : string.

Lemma validate_fields_pass (w : world F) (fs : list FieldSchema) :
  (forall f, In f fs -> field_name f = "embeddings" ->
             params f !! "dim" = Some 768) ->
  validate_fields collection_name schema_768 fs w = (w, Returned None).
Proof.
  induction fs as [|f fs IH]; intros Hdim; [reflexivity|].
  simpl. destruct (String.eqb (field_name f) "embeddings") eqn:Hname.
  - apply String.eqb_eq in Hname.
    run_M. unfold params_dim. rewrite (Hdim f (or_introl eq_refl) Hname).
    simpl. apply IH. intros g Hg. apply Hdim. now right.
  - apply IH. intros g Hg. apply Hdim. now right.
Qed.

Lemma validate_fields_repair (w : world F) (pre post : list FieldSchema)
    (f : FieldSchema) (d : Z) :
  (forall g, In g pre -> field_name g <> "embeddings") ->
  field_name f = "embeddings" ->
  params f !! "dim" = Some d ->
  d <> 768 ->
  validate_fields collection_name schema_768 (pre ++ f :: post) w
  = (fresh_world collection_name w
       ["Schema mismatch detected for field 'embeddings'. Expected dim=768, got dim="
        +:+ str_int d +:+ ".";
        "Dropping and recreating the collection.";
        "Recreated collection: " +:+ collection_name],
     Returned (Some collection_name)).
Proof.
  intros Hpre Hname Hdim Hd.
  induction pre as [|g pre IH]; simpl.
  - apply String.eqb_eq in Hname. rewrite Hname.
    run_M. unfold params_dim. rewrite Hdim. simpl.
    replace (d =? 768) with false by (symmetry; apply Z.eqb_neq; exact Hd).
    simpl. unfold drop_collection, Collection_with_schema. run_M.
    rewrite lookup_delete_eq. simpl. unfold fresh_world, printed. simpl.
    rewrite insert_delete_eq, <- !app_assoc. reflexivity.
  - replace (String.eqb (field_name g) "embeddings") with false.
    + apply IH. intros g' Hg'. apply Hpre. now right.
    + symmetry. apply String.eqb_neq. apply Hpre. now left.
Qed.

Lemma connect_to_milvus_creates (w : world F) :
  milvus w !! collection_name = None ->
  connect_to_milvus collection_name w
  = (fresh_world collection_name w ["Created new collection: " +:+ collection_name],
     Returned collection_name).
Proof.
  intros Hnone. unfold connect_to_milvus, Collection_with_schema.
  run_M. rewrite Hnone. simpl. rewrite Hnone. reflexivity.
Qed.

Lemma connect_to_milvus_keeps (w : world F) (c : collection F) :
  milvus w !! collection_name = Some c ->
  (forall f, In f (fields (schema c)) -> field_name f = "embeddings" ->
             params f !! "dim" = Some 768) ->
  connect_to_milvus collection_name w
  = (printed w ["Connected to existing collection: " +:+ collection_name
                +:+ " with correct schema."],
     Returned collection_name).
Proof.
  intros Hsome Hdim. unfold connect_to_milvus.
  unfold mbind at 1. unfold M_bind, gets. rewrite Hsome.
  unfold mbind, M_bind. rewrite (validate_fields_pass w _ Hdim).
  reflexivity.
Qed.

Lemma connect_to_milvus_repairs (w : world F) (c : collection F)
    (pre post : list FieldSchema) (f : FieldSchema) (d : Z) :
  milvus w !! collection_name = Some c ->
  fields (schema c) = (pre ++ f :: post)%list ->
  (forall g, In g pre -> field_name g <> "embeddings") ->
  field_name f = "embeddings" ->
  params f !! "dim" = Some d ->
  d <> 768 ->
  connect_to_milvus collection_name w
  = (fresh_world collection_name w
       ["Schema mismatch detected for field 'embeddings'. Expected dim=768, got dim="
        +:+ str_int d +:+ ".";
        "Dropping and recreating the collection.";
        "Recreated collection: " +:+ collection_name],
     Returned collection_name).
Proof.
  intros Hsome Hfields Hpre Hname Hdim Hd.
  unfold connect_to_milvus.
  unfold mbind at 1. unfold M_bind, gets. rewrite Hsome, Hfields.
  unfold mbind, M_bind.
  rewrite (validate_fields_repair w pre post f d Hpre Hname Hdim Hd).
  reflexivity.
Qed.

(** X30.  The schema lifecycle of [connect_to_milvus] (insert side), as
    far as it goes: it looks at the fields named "embeddings" and at no
    other.  The declared schema has an INT64 primary key and a
    FLOAT_VECTOR field of dimension 768.  A missing collection is created
    with it.  A collection in which every field named "embeddings"
    declares dimension 768 (also one without such a field) is left as it
    is.  A collection whose first field named "embeddings" declares
    another dimension is dropped and created anew: the server then holds
    the same fresh, empty collection that the creation of a missing one
    gives; the repair is reported on the terminal. *)
Theorem connect_to_milvus_lifecycle (w : world F) :
  (exists f_vec f_id,
      fields schema_768 = [f_vec; f_id]
      /\ dtype f_vec = FLOAT_VECTOR /\ params f_vec !! "dim" = Some 768
      /\ dtype f_id = INT64 /\ is_primary f_id = true)
  /\ (milvus w !! collection_name = None ->
      connect_to_milvus collection_name w
      = (fresh_world collection_name w ["Created new collection: " +:+ collection_name],
         Returned collection_name))
  /\ (forall c,
        milvus w !! collection_name = Some c ->
        (forall f, In f (fields (schema c)) -> field_name f = "embeddings" ->
                   params f !! "dim" = Some 768) ->
        connect_to_milvus collection_name w
        = (printed w ["Connected to existing collection: " +:+ collection_name
                      +:+ " with correct schema."],
           Returned collection_name))
  /\ (forall c (pre post : list FieldSchema) (f : FieldSchema) (d : Z),
        milvus w !! collection_name = Some c ->
        fields (schema c) = (pre ++ f :: post)%list ->
        (forall g, In g pre -> field_name g <> "embeddings") ->
        field_name f = "embeddings" ->
        params f !! "dim" = Some d ->
        d <> 768 ->
        connect_to_milvus collection_name w
        = (fresh_world collection_name w
             ["Schema mismatch detected for field 'embeddings'. Expected dim=768, got dim="
              +:+ str_int d +:+ ".";
              "Dropping and recreating the collection.";
              "Recreated collection: " +:+ collection_name],
           Returned collection_name)).
Proof.
  split; [|split; [|split]].
  - do 2 eexists. split; [reflexivity|]. repeat split; reflexivity.
  - apply connect_to_milvus_creates.
  - apply connect_to_milvus_keeps.
  - apply connect_to_milvus_repairs.
Qed.

End SchemaLifecycle.

Section IndexRuns.

Import milvus_insert.

Context {F : Type} `{Arith F}.
Variable collection_name : string.
Variable encode : option string -> result (vector F).
Variable insert_nothing : result unit.

Let index_batch :=
  insert_weighted_embeddings collection_name encode insert_nothing.

Lemma combine_embeddings_weights (t a s : vector F) :
  combine_embeddings t a s weights
  = Returned (vadd (vadd (scale 0.5 t) (scale 0.3 a)) (scale 0.2 s)).
Proof. reflexivity. Qed.

Lemma combine_embeddings_length (t a s v : vector F) (n : nat) :
  length t = n -> length a = n -> length s = n ->
  combine_embeddings t a s weights = Returned v -> length v = n.
Proof.
  intros Ht Ha Hs. rewrite combine_embeddings_weights. intros [= <-].
  unfold vadd, scale. rewrite !length_zip_with, !length_map. lia.
Qed.

Lemma fused_lookup (t a s : vector F) (j : nat) (tj aj sj : F) :
  t !! j = Some tj -> a !! j = Some aj -> s !! j = Some sj ->
  vadd (vadd (scale 0.5 t) (scale 0.3 a)) (scale 0.2 s) !! j
  = Some (add (add (mul (of_float 0.5) tj) (mul (of_float 0.3) aj))
              (mul (of_float 0.2) sj)).
Proof.
  unfold vector in *. intros Ht Ha Hs. unfold vadd, scale.
  rewrite !lookup_zip_with, !list_lookup_fmap, Ht, Ha, Hs. reflexivity.
Qed.

Lemma embed_articles_returns (summaries : gmap Z (option string))
    (arts : list article) :
  forall embeddings ids E I,
    embed_articles encode summaries arts embeddings ids = Returned (E, I) ->
    exists vs, E = (embeddings ++ vs)%list
               /\ I = (ids ++ map article_id arts)%list
               /\ Forall2 (fused_for encode summaries) arts vs.
Proof.
  induction arts as [|[[i title] abstract] arts IH]; intros embeddings ids E I.
  - simpl. intros [= <- <-]. exists []. rewrite !app_nil_r. auto.
  - simpl.
    destruct (encode (Some title)) as [t|] eqn:Ht; simpl; [|discriminate].
    destruct (encode abstract) as [a|] eqn:Ha; simpl; [|discriminate].
    destruct (encode (default (Some "") (summaries !! i))) as [s|] eqn:Hs;
      simpl; [|discriminate].
    intros Hrest. apply IH in Hrest as (vs & -> & -> & Hvs).
    eexists (_ :: vs). rewrite <- !app_assoc. simpl.
    split; [reflexivity|]. split; [reflexivity|].
    constructor; [|exact Hvs].
    exists t, a, s. simpl. rewrite combine_embeddings_weights. auto.
Qed.

Lemma embed_articles_succeeds (summaries : gmap Z (option string))
    (arts : list article) :
  (forall art text, In art arts -> In text (texts summaries art) ->
                    exists v, encode text = Returned v) ->
  forall embeddings ids,
  exists E I, embed_articles encode summaries arts embeddings ids
              = Returned (E, I).
Proof.
  induction arts as [|[[i title] abstract] arts IH]; intros Henc embeddings ids.
  - simpl. eauto.
  - simpl.
    destruct (Henc (i, title, abstract) (Some title)) as (t & ->);
      [now left | simpl; auto |].
    destruct (Henc (i, title, abstract) abstract) as (a & ->);
      [now left | simpl; auto |].
    destruct (Henc (i, title, abstract) (default (Some "") (summaries !! i)))
      as (s & ->); [now left | simpl; auto |].
    simpl. apply IH. intros art text Hart. apply Henc. now right.
Qed.

Lemma embed_articles_fails (summaries : gmap Z (option string))
    (arts : list article) :
  (exists art text e, In art arts /\ In text (texts summaries art)
                      /\ encode text = Raised e) ->
  forall embeddings ids,
  exists text e, encode text = Raised e
    /\ embed_articles encode summaries arts embeddings ids = Raised e.
Proof.
  induction arts as [|[[i title] abstract] arts IH];
    intros (art & text & e & Hart & Htext & Hfail) embeddings ids.
  - destruct Hart.
  - simpl.
    destruct (encode (Some title)) as [t|et] eqn:Ht; simpl; [|eauto].
    destruct (encode abstract) as [a|ea] eqn:Ha; simpl; [|eauto].
    destruct (encode (default (Some "") (summaries !! i))) as [s|es] eqn:Hs;
      simpl; [|eauto].
    apply IH. destruct Hart as [<-|Hart]; [|eauto 7].
    simpl in Htext. destruct Htext as [<-|[<-|[<-|[]]]]; congruence.
Qed.

Lemma fused_for_length (summaries : gmap Z (option string))
    (arts : list article) (vs : list (vector F)) (n : nat) :
  (forall art text, In art arts -> In text (texts summaries art) ->
                    exists v, encode text = Returned v /\ length v = n) ->
  Forall2 (fused_for encode summaries) arts vs ->
  Forall (fun v => length v = n) vs.
Proof.
  intros Henc Hvs. induction Hvs as [|art v arts vs Hv Hvs IH]; constructor.
  - destruct Hv as (t & a & s & Ht & Ha & Hs & Hv).
    assert (Hlen : forall text x, In text (texts summaries art) ->
                                  encode text = Returned x -> length x = n).
    { intros text x Hin Hx.
      destruct (Henc art text (or_introl eq_refl) Hin) as (x' & Hx' & Hn).
      congruence. }
    eapply combine_embeddings_length; [| | |exact Hv];
      eapply Hlen; eauto; simpl; auto.
  - apply IH. intros art' text Hart. apply Henc. now right.
Qed.

(** A run of [insert_weighted_embeddings] in which the embedder answers
    every text of the batch with a vector of the declared dimension. *)
Lemma index_batch_stores (w w1 : world F) (c1 : collection F)
    (arts : list article) (summaries : gmap Z (option string)) :
  connect_to_milvus collection_name w = (w1, Returned collection_name) ->
  milvus w1 !! collection_name = Some c1 ->
  schema c1 = schema_768 ->
  arts <> [] ->
  (forall art text, In art arts -> In text (texts summaries art) ->
                    exists v, encode text = Returned v /\ length v = 768%nat) ->
  exists vs,
    Forall2 (fused_for encode summaries) arts vs
    /\ index_batch arts summaries w
       = (indexed_world collection_name w1 c1 (zip vs (map article_id arts)), Returned tt).
Proof.
  intros Hconnect Hcoll Hschema Hne Henc.
  destruct (embed_articles_succeeds summaries arts) with (embeddings := @nil (vector F))
    (ids := @nil Z) as (E & I & Hloop).
  { intros art text Hart Htext.
    destruct (Henc art text Hart Htext) as (v & Hv & _). eauto. }
  destruct (embed_articles_returns _ _ _ _ _ _ Hloop) as (vs & -> & -> & Hvs).
  simpl in Hloop. exists vs. split; [exact Hvs|].
  pose proof (fused_for_length _ _ _ _ Henc Hvs) as Hlen.
  pose proof (Forall2_length _ _ _ Hvs) as Hcount.
  unfold index_batch, insert_weighted_embeddings.
  unfold mbind at 1. unfold M_bind. rewrite Hconnect.
  unfold mbind at 1. unfold M_bind, lift. rewrite Hloop.
  unfold Collection_insert. run_M. rewrite Hcoll.
  assert (Hcheck : column_check (schema c1) vs (map article_id arts) = true).
  { rewrite Hschema. unfold column_check. simpl.
    apply andb_true_iff. split.
    - apply forallb_forall. intros v Hv.
      rewrite Forall_forall in Hlen. apply Z.eqb_eq.
      rewrite (Hlen v). { reflexivity. }
      apply list_elem_of_In. exact Hv.
    - apply Nat.eqb_eq. rewrite length_map. lia. }
  rewrite Hcheck.
  destruct vs as [|v vs].
  { destruct arts; [congruence | discriminate Hcount]. }
  assert (Hrows : length (zip (v :: vs) (map article_id arts))
                  = length (map article_id arts)).
  { rewrite length_zip_with, length_map. lia. }
  unfold indexed_world. rewrite Hrows. reflexivity.
Qed.

(** C5, as the code has it.  A run over a batch on a collection that
    already has the declared schema keeps every entity the collection
    holds and appends one entity per document of the batch, under the
    document's id: indexing an id again adds an entry for it and replaces
    none.  (The embedder is taken to answer every text of the batch with
    a vector of dimension 768.) *)
Theorem index_batch_appends (w : world F) (c : collection F)
    (arts : list article) (summaries : gmap Z (option string)) :
  milvus w !! collection_name = Some c ->
  schema c = schema_768 ->
  arts <> [] ->
  (forall art text, In art arts -> In text (texts summaries art) ->
                    exists v, encode text = Returned v /\ length v = 768%nat) ->
  exists w' rows,
    index_batch arts summaries w = (w', Returned tt)
    /\ milvus w' !! collection_name
       = Some (mk_collection schema_768 (entities c ++ rows))
    /\ map snd rows = map article_id arts.
Proof.
  intros Hcoll Hschema Hne Henc.
  assert (Hconnect := connect_to_milvus_keeps collection_name w c Hcoll).
  rewrite Hschema in Hconnect. simpl in Hconnect.
  specialize (Hconnect
    ltac:(intros f [<-|[<-|[]]]; [reflexivity|discriminate])).
  destruct (index_batch_stores _ _ c arts summaries Hconnect Hcoll Hschema Hne Henc)
    as (vs & Hvs & Hrun).
  exists (indexed_world collection_name
            (printed w ["Connected to existing collection: " +:+ collection_name
                        +:+ " with correct schema."])
            c (zip vs (map article_id arts))),
         (zip vs (map article_id arts)).
  split; [exact Hrun|]. split.
  - unfold indexed_world. simpl. rewrite lookup_insert_eq, Hschema. reflexivity.
  - apply snd_zip. rewrite length_map.
    rewrite (Forall2_length _ _ _ Hvs). lia.
Qed.

(** C4, as the code has it.  When the embedder fails on a text of some
    document of the batch, the whole run raises the embedder's exception:
    the world is left as [connect_to_milvus] left it, so that no document
    of the batch is inserted and nothing is reported. *)
Theorem index_batch_aborts (w w1 : world F)
    (arts : list article) (summaries : gmap Z (option string)) :
  connect_to_milvus collection_name w = (w1, Returned collection_name) ->
  (exists art text e, In art arts /\ In text (texts summaries art)
                      /\ encode text = Raised e) ->
  exists text e,
    encode text = Raised e
    /\ index_batch arts summaries w = (w1, Raised e).
Proof.
  intros Hconnect Hfault.
  destruct (embed_articles_fails summaries arts Hfault [] [])
    as (text & e & Htext & Hloop).
  exists text, e. split; [exact Htext|].
  unfold index_batch, insert_weighted_embeddings.
  unfold mbind at 1. unfold M_bind. rewrite Hconnect.
  unfold mbind at 1. unfold M_bind, lift. rewrite Hloop. reflexivity.
Qed.

End IndexRuns.

(** C5 fails as stated: after two runs over the same one-document batch the
    collection holds two entities for id 1. *)
Lemma reindexing_duplicates :
  exists w1 w2 c,
    IndexExample.index_batch IndexExample.batch_1 ∅ IndexExample.empty_server
    = (w1, Returned tt)
    /\ IndexExample.index_batch IndexExample.batch_1 ∅ w1 = (w2, Returned tt)
    /\ milvus w2 !! "articles" = Some c
    /\ map snd (entities c) = [1; 1].
Proof.
  do 3 eexists. split; [vm_compute; reflexivity|].
  split; [vm_compute; reflexivity|].
  split; [vm_compute; reflexivity|].
  vm_compute. reflexivity.
Qed.

(** C4 fails as stated: the embedder fails on the first document of a batch
    of two; the run raises, and the second document is not indexed. *)
Lemma embedding_fault_aborts_batch :
  exists w1 c,
    IndexExample.index_batch IndexExample.batch_bad ∅ IndexExample.empty_server
    = (w1, Raised (LibraryError "encoding fault"))
    /\ milvus w1 !! "articles" = Some c
    /\ entities c = [].
Proof.
  do 2 eexists. split; [vm_compute; reflexivity|].
  split; vm_compute; reflexivity.
Qed.

Lemma index_batch_appends_witness :
  exists w' rows,
    IndexExample.index_batch IndexExample.batch_1 ∅
      (mk_world {[ "articles" :=
                     mk_collection milvus_insert.schema_768
                                   [(repeat 0%Q 768, 1)] ]} [] [] [])
    = (w', Returned tt)
    /\ milvus w' !! "articles"
       = Some (mk_collection milvus_insert.schema_768
                             ([(repeat 0%Q 768, 1)] ++ rows))
    /\ map snd rows = [1].
Proof.
  apply (index_batch_appends "articles" IndexExample.encode (Returned tt)
           (mk_world {[ "articles" :=
                          mk_collection milvus_insert.schema_768
                                        [(repeat 0%Q 768, 1)] ]} [] [] [])
           (mk_collection milvus_insert.schema_768 [(repeat 0%Q 768, 1)])
           IndexExample.batch_1 ∅).
  - reflexivity.
  - reflexivity.
  - discriminate.
  - intros art text [<-|[]] [<-|[<-|[<-|[]]]];
      (eexists; split; [reflexivity | vm_compute; reflexivity]).
Defined.

Lemma index_batch_aborts_witness :
  exists text e,
    IndexExample.encode text = Raised e
    /\ IndexExample.index_batch IndexExample.batch_bad ∅
         IndexExample.empty_server
       = (fresh_world "articles" IndexExample.empty_server
            ["Created new collection: articles"],
          Raised e).
Proof.
  apply (index_batch_aborts "articles" IndexExample.encode (Returned tt)
           IndexExample.empty_server
           (fresh_world "articles" IndexExample.empty_server
              ["Created new collection: articles"])
           IndexExample.batch_bad ∅).
  - reflexivity.
  - exists (1, "bad", Some "first abstract"), (Some "bad"),
           (LibraryError "encoding fault").
    split; [now left|]. split; [now left|]. reflexivity.
Defined.

(** The repair of testable property 7: a collection declared with
    dimension 512 is dropped and created anew. *)
Lemma connect_to_milvus_lifecycle_witness :
  milvus_insert.connect_to_milvus "articles"
    (mk_world
       {[ "articles" :=
            mk_collection
              (mk_schema
                 [ mk_field "embeddings" FLOAT_VECTOR {[ "dim" := 512 ]}
                            false false;
                   mk_field "id" INT64 ∅ true false ]
                 "an older layout")
              [(repeat 0%Q 512, 7)] ]} [] [] [])
  = (mk_world
       {[ "articles" := mk_collection milvus_insert.schema_768 [] ]} [] []
       ["Schema mismatch detected for field 'embeddings'. Expected dim=768, got dim=512.";
        "Dropping and recreating the collection.";
        "Recreated collection: articles"],
     Returned "articles").
Proof.
  pose proof (proj2 (proj2 (proj2 (connect_to_milvus_lifecycle "articles"
    (mk_world
       {[ "articles" :=
            mk_collection
              (mk_schema
                 [ mk_field "embeddings" FLOAT_VECTOR {[ "dim" := 512 ]}
                            false false;
                   mk_field "id" INT64 ∅ true false ]
                 "an older layout")
              [(repeat 0%Q 512, 7)] ]} [] [] []))))
    _ [] [mk_field "id" INT64 ∅ true false]
    (mk_field "embeddings" FLOAT_VECTOR {[ "dim" := 512 ]} false false) 512
    eq_refl eq_refl ltac:(intros g []) eq_refl eq_refl ltac:(discriminate))
    as Hrepair.
  rewrite Hrepair. unfold fresh_world. simpl.
  rewrite insert_singleton_eq. reflexivity.
Defined.

(** C6.  [connect_to_milvus] (insert side) does not repair every
    collection that declares another dimension: it reads the dimension
    of the field named "embeddings" only.  A collection without a field
    of that name is reported as "with correct schema" and kept with all
    it holds, whatever dimension its vector field declares.  So it is
    with [TableExample.renamed_server]: the vector field of its
    collection "articles" is called "vector" and declares dimension 512;
    the collection is neither dropped nor created anew, its stored vector
    stays, and the insert of the indexing run that follows is refused, so
    that nothing is indexed. *)
Theorem connect_to_milvus_keeps_renamed_field :
  (forall (F : Type) (collection_name : string) (w : world F)
          (c : collection F),
      milvus w !! collection_name = Some c ->
      (forall f, In f (fields (schema c)) -> field_name f <> "embeddings") ->
      milvus_insert.connect_to_milvus collection_name w
      = (printed w ["Connected to existing collection: " +:+ collection_name
                    +:+ " with correct schema."],
         Returned collection_name))
  /\ milvus TableExample.renamed_server !! "articles"
     = Some TableExample.renamed_collection
  /\ (exists f,
         In f (fields (schema TableExample.renamed_collection))
         /\ dtype f = FLOAT_VECTOR /\ params f !! "dim" = Some 512)
  /\ milvus_insert.connect_to_milvus "articles" TableExample.renamed_server
     = (printed TableExample.renamed_server
          ["Connected to existing collection: articles with correct schema."],
        Returned "articles")
  /\ IndexExample.index_batch IndexExample.batch_1 ∅
       TableExample.renamed_server
     = (printed TableExample.renamed_server
          ["Connected to existing collection: articles with correct schema."],
        Raised (LibraryError "The data doesn't match with schema fields.")).
Proof.
  split; [|split; [|split; [|split]]].
  - intros F collection_name w c Hsome Hnames.
    apply (connect_to_milvus_keeps collection_name w c Hsome).
    intros f Hf Hname. destruct (Hnames f Hf Hname).
  - reflexivity.
  - exists TableExample.field_vector_512.
    split; [now left|]. split; reflexivity.
  - vm_compute. reflexivity.
  - vm_compute. reflexivity.
Qed.

Lemma connect_to_milvus_keeps_renamed_field_witness :
  milvus_insert.connect_to_milvus "articles" TableExample.renamed_server
  = (printed TableExample.renamed_server
       ["Connected to existing collection: " +:+ "articles"
        +:+ " with correct schema."],
     Returned "articles").
Proof.
  apply (proj1 connect_to_milvus_keeps_renamed_field Q "articles"
           TableExample.renamed_server TableExample.renamed_collection).
  - reflexivity.
  - intros f [<-|[<-|[]]]; discriminate.
Defined.

Lemma Forall2_with_In {A B : Type} (P : A -> B -> Prop)
    (l : list A) (k : list B) :
  Forall2 P l k -> Forall2 (fun x y => In x l /\ P x y) l k.
Proof.
  induction 1 as [|x y l k HP Hrest IH]; constructor.
  - split; [now left | exact HP].
  - eapply Forall2_impl; [exact IH|].
    intros x' y' [Hin HP']. split; [now right | exact HP'].
Qed.

(** ** Fusion in rounded arithmetic

    The embeddings are float32 arrays.  Their arithmetic is taken in the
    standard model of rounding: an operation returns its exact result
    rounded by [rnd], a Python float becomes an array element through
    [cast], and both stay within a relative error [u] and an absolute
    error [eta] of their argument.  For float32, [u] is 2^-24 for [rnd]
    and below 2^-23 for [cast] (a float64 rounded once more), and [eta],
    the underflow term, is 2^-150. *)

Section RoundedFusion.

Import milvus_insert.

Local Open Scope R_scope.

Variables cast rnd : R -> R.
Variables u eta : R.
Hypothesis u_bound : 0 <= u <= / 8388608.
Hypothesis eta_bound : 0 <= eta <= / 1000000000.
Hypothesis cast_error : forall x, Rabs (cast x - x) <= u * Rabs x + eta.
Hypothesis rnd_error : forall x, Rabs (rnd x - x) <= u * Rabs x + eta.

Let float_arith : Arith R := rounded_arith cast rnd.
#[local] Existing Instance float_arith.

Lemma Rabs_bound (x b : R) : Rabs x <= b -> - b <= x <= b.
Proof. unfold Rabs. destruct (Rcase_abs x); lra. Qed.

Lemma rounding_error (f : R -> R) (x B : R) :
  (forall y, Rabs (f y - y) <= u * Rabs y + eta) ->
  Rabs x <= B ->
  Rabs (f x - x) <= / 8388608 * B + / 1000000000.
Proof.
  intros Hf Hx. specialize (Hf x).
  assert (u * Rabs x <= / 8388608 * B).
  { apply Rmult_le_compat; try lra. apply Rabs_pos. }
  lra.
Qed.

(** Rounding a value [x] that is within [delta] of an exact value [e]. *)
Lemma rounded_close (x e B delta : R) :
  Rabs e <= B -> Rabs (x - e) <= delta ->
  Rabs (rnd x - e) <= delta + / 8388608 * (B + delta) + / 1000000000.
Proof.
  intros He Hx.
  assert (Hbound : Rabs x <= B + delta).
  { apply Rabs_bound in He, Hx. apply Rabs_le. lra. }
  pose proof (rounding_error rnd x (B + delta) rnd_error Hbound) as Hr.
  apply Rabs_bound in Hr, Hx. apply Rabs_le. lra.
Qed.

(** One weighted component: the weight is cast, the product is rounded. *)
Lemma weighted_component (w x : R) :
  0 <= w <= 1 -> Rabs x <= 1 ->
  Rabs (rnd (cast w * x) - w * x)
  <= (/ 8388608 * w + / 1000000000)
     + / 8388608 * (w + (/ 8388608 * w + / 1000000000)) + / 1000000000
  /\ Rabs (w * x) <= w.
Proof.
  intros Hw Hx.
  assert (Hexact : Rabs (w * x) <= w).
  { rewrite Rabs_mult, (Rabs_pos_eq w) by lra.
    rewrite <- (Rmult_1_r w) at 2. apply Rmult_le_compat_l; lra. }
  split; [|exact Hexact].
  apply rounded_close; [exact Hexact|].
  replace (cast w * x - w * x) with ((cast w - w) * x) by ring.
  rewrite Rabs_mult.
  assert (Hcast : Rabs (cast w - w) <= / 8388608 * w + / 1000000000).
  { apply (rounding_error cast w w cast_error). rewrite Rabs_pos_eq; lra. }
  rewrite <- (Rmult_1_r (_ + _)).
  apply Rmult_le_compat; try apply Rabs_pos; assumption.
Qed.

(** One component of the fused vector is within 10^-6 of the exact
    weighted sum. *)
Lemma fused_component (t a s : R) :
  Rabs t <= 1 -> Rabs a <= 1 -> Rabs s <= 1 ->
  Rabs (add (add (mul (of_float 0.5) t) (mul (of_float 0.3) a))
            (mul (of_float 0.2) s)
        - (0.5 * t + 0.3 * a + 0.2 * s))
  <= / 1000000.
Proof.
  intros Ht Ha Hs. simpl.
  replace (Q2R 0.5) with 0.5 by (unfold Q2R; simpl; lra).
  replace (Q2R 0.3) with 0.3 by (unfold Q2R; simpl; lra).
  replace (Q2R 0.2) with 0.2 by (unfold Q2R; simpl; lra).
  destruct (weighted_component 0.5 t ltac:(lra) Ht) as [Hp0 He0].
  destruct (weighted_component 0.3 a ltac:(lra) Ha) as [Hp1 He1].
  destruct (weighted_component 0.2 s ltac:(lra) Hs) as [Hp2 He2].
  set (p0 := rnd (cast 0.5 * t)) in *.
  set (p1 := rnd (cast 0.3 * a)) in *.
  set (p2 := rnd (cast 0.2 * s)) in *.
  assert (Hs1 : Rabs (rnd (p0 + p1) - (0.5 * t + 0.3 * a)) <= 4 / 10000000).
  { eapply Rle_trans.
    - apply (rounded_close (p0 + p1) (0.5 * t + 0.3 * a) 0.8
                           (3 / 10000000)).
      + apply Rabs_bound in He0, He1. apply Rabs_le. lra.
      + apply Rabs_bound in Hp0, Hp1. apply Rabs_le. lra.
    - lra. }
  set (s1 := rnd (p0 + p1)) in *.
  eapply Rle_trans.
  - apply (rounded_close (s1 + p2) (0.5 * t + 0.3 * a + 0.2 * s) 1
                         (6 / 10000000)).
    + apply Rabs_bound in He0, He1, He2. apply Rabs_le. lra.
    + apply Rabs_bound in Hs1, Hp2. apply Rabs_le. lra.
  - lra.
Qed.

Variable collection_name : string.
Variable encode : option string -> result (vector R).
Variable insert_nothing : result unit.

(** C3.  For a batch whose texts the embedder answers with vectors of
    dimension 768 and components of magnitude at most 1 (as those of an
    L2-normalized vector are), the run appends for every document of the
    batch the vector [combine_embeddings] returns for its three field
    vectors, as it is: nothing is applied to it between the fusion and
    the insert.  Each of its components is within 10^-6 of
    [0.5 * t + 0.3 * a + 0.2 * s] for the corresponding components of the
    title, abstract and summary vectors. *)
Theorem index_batch_fuses (w w1 : world R) (c1 : collection R)
    (arts : list article) (summaries : gmap Z (option string)) :
  connect_to_milvus collection_name w = (w1, Returned collection_name) ->
  milvus w1 !! collection_name = Some c1 ->
  schema c1 = schema_768 ->
  arts <> [] ->
  (forall art text, In art arts -> In text (texts summaries art) ->
     exists v, encode text = Returned v /\ length v = 768%nat
               /\ Forall (fun x => Rabs x <= 1) v) ->
  exists w2 vs,
    insert_weighted_embeddings collection_name encode insert_nothing
                               arts summaries w
    = (w2, Returned tt)
    /\ milvus w2 !! collection_name
       = Some (mk_collection schema_768
                 (entities c1 ++ zip vs (map article_id arts)))
    /\ Forall2
         (fun (art : article) (v : vector R) =>
            exists t a s,
              encode (Some art.1.2) = Returned t
              /\ encode art.2 = Returned a
              /\ encode (default (Some "") (summaries !! art.1.1)%stdpp)
                 = Returned s
              /\ combine_embeddings t a s weights = Returned v
              /\ forall j tj aj sj,
                   t !! j = Some tj -> a !! j = Some aj -> s !! j = Some sj ->
                   exists x, v !! j = Some x
                     /\ Rabs (x - (0.5 * tj + 0.3 * aj + 0.2 * sj))
                        <= / 1000000)
         arts vs.
Proof.
  intros Hconnect Hcoll Hschema Hne Henc.
  destruct (index_batch_stores collection_name encode insert_nothing
              w w1 c1 arts summaries Hconnect Hcoll Hschema Hne)
    as (vs & Hvs & Hrun).
  { intros art text Hart Htext.
    destruct (Henc art text Hart Htext) as (v & Hv & Hlen & _). eauto. }
  eexists _, vs. split; [exact Hrun|]. split.
  - unfold indexed_world. simpl. rewrite lookup_insert_eq, Hschema.
    reflexivity.
  - apply Forall2_with_In in Hvs.
    eapply Forall2_impl; [exact Hvs|].
    intros art v (Hart & t & a & s & Ht & Ha & Hs & Hv).
    exists t, a, s. repeat (split; [assumption|]).
    intros j tj aj sj Htj Haj Hsj.
    rewrite combine_embeddings_weights in Hv. injection Hv as <-.
    eexists. split; [apply fused_lookup; eassumption|].
    assert (Hsmall : forall text x y, In text (texts summaries art) ->
              encode text = Returned x -> x !! j = Some y -> Rabs y <= 1).
    { intros text x y Hin Hx Hy.
      destruct (Henc art text Hart Hin) as (x' & Hx' & _ & Hall).
      assert (x' = x) as -> by congruence.
      rewrite Forall_forall in Hall. apply Hall.
      eapply list_elem_of_lookup_2. exact Hy. }
    apply fused_component.
    + eapply (Hsmall _ t); [|exact Ht|exact Htj]. simpl. auto.
    + eapply (Hsmall _ a); [|exact Ha|exact Haj]. simpl. auto.
    + eapply (Hsmall _ s); [|exact Hs|exact Hsj]. simpl. auto.
Qed.

End RoundedFusion.

Lemma exact_rounding (x : R) : (Rabs (x - x) <= 0 * Rabs x + 0)%R.
Proof. rewrite Rminus_diag, Rabs_R0. lra. Qed.

Lemma FusionExample_encode_unit (text : option string) :
  exists v, FusionExample.encode text = Returned v /\ length v = 768%nat
            /\ Forall (fun x => (Rabs x <= 1)%R) v.
Proof.
  eexists. split; [reflexivity|]. split.
  - change (S (length (repeat 0%R 767)) = 768%nat).
    now rewrite repeat_length.
  - constructor; [rewrite Rabs_R1; lra|].
    apply Forall_forall. intros x Hx. apply list_elem_of_In in Hx.
    apply repeat_spec in Hx as ->. rewrite Rabs_R0. lra.
Qed.

Lemma index_batch_fuses_witness :
  exists w2 vs,
    milvus_insert.insert_weighted_embeddings
      (H := rounded_arith (fun x => x) (fun x => x))
      "articles" FusionExample.encode (Returned tt)
      FusionExample.batch ∅ FusionExample.empty_server
    = (w2, Returned tt)
    /\ milvus w2 !! "articles"
       = Some (mk_collection milvus_insert.schema_768
                 ([] ++ zip vs (map article_id FusionExample.batch)))
    /\ Forall2
         (fun (art : milvus_insert.article) (v : vector R) =>
            exists t a s,
              FusionExample.encode (Some art.1.2) = Returned t
              /\ FusionExample.encode art.2 = Returned a
              /\ FusionExample.encode
                   (default (Some "") ((∅ : gmap Z (option string)) !! art.1.1))
                 = Returned s
              /\ milvus_insert.combine_embeddings
                   (H := rounded_arith (fun x => x) (fun x => x))
                   t a s milvus_insert.weights = Returned v
              /\ forall j tj aj sj,
                   t !! j = Some tj -> a !! j = Some aj -> s !! j = Some sj ->
                   exists x, v !! j = Some x
                     /\ (Rabs (x - (0.5 * tj + 0.3 * aj + 0.2 * sj))
                         <= / 1000000)%R)
         FusionExample.batch vs.
Proof.
  apply (index_batch_fuses (fun x => x) (fun x => x) 0%R 0%R
           ltac:(lra) ltac:(lra)
           exact_rounding exact_rounding
           "articles" FusionExample.encode (Returned tt)
           FusionExample.empty_server
           (fresh_world "articles" FusionExample.empty_server
              ["Created new collection: articles"])
           (mk_collection milvus_insert.schema_768 [])
           FusionExample.batch ∅).
  - reflexivity.
  - reflexivity.
  - reflexivity.
  - discriminate.
  - intros art text _ _. apply FusionExample_encode_unit.
Defined.

(** The fused vector is stored with the norm the weighted sum happens to
    have.  In exact arithmetic, fusing the three unit vectors of dimension
    three gives (0.5, 0.3, 0.2), of squared norm 0.38. *)
Lemma fused_norm_example :
  exists v,
    milvus_insert.combine_embeddings (H := exact_arith)
      [1; 0; 0]%Q [0; 1; 0]%Q [0; 0; 1]%Q milvus_insert.weights
    = Returned v
    /\ Forall2 Qeq v [0.5; 0.3; 0.2]%Q
    /\ Qeq (fold_right Qplus 0%Q (map (fun x => x * x)%Q v)) 0.38%Q.
Proof.
  eexists. split; [reflexivity|]. split.
  - repeat constructor.
  - reflexivity.
Qed.

(** * Further properties *)

(** ** The pattern and the rules of [parse_date_filter] *)

Section PatternFacts.

Lemma lower_app (a b : string) : lower (a +:+ b) = lower a +:+ lower b.
Proof. induction a as [|c a IH]; simpl; [reflexivity|]. now rewrite IH. Qed.

Lemma prefix_app (needle rest : string) :
  String.prefix needle (needle +:+ rest) = true.
Proof.
  induction needle as [|c needle IH]; simpl.
  - destruct rest; reflexivity.
  - destruct (ascii_dec c c) as [_|Hne]; [exact IH | congruence].
Qed.

Lemma contains_app (needle pre post : string) :
  contains needle (pre +:+ needle +:+ post) = true.
Proof.
  induction pre as [|c pre IH].
  - change (contains needle (needle +:+ post) = true).
    pose proof (prefix_app needle post) as Hp.
    destruct (needle +:+ post); cbn [contains]; rewrite Hp; reflexivity.
  - simpl. rewrite IH. apply orb_true_r.
Qed.

Lemma match_literal_sound (lit s rest : string) :
  match_literal lit s = Some rest ->
  exists w, s = w +:+ rest /\ lower w = lit.
Proof.
  revert s. induction lit as [|l lit IH]; intros s.
  - simpl. intros [= ->]. exists EmptyString. auto.
  - destruct s as [|c s]; simpl; [discriminate|].
    destruct (Ascii.eqb (lower_char c) l) eqn:Hc; [|discriminate].
    apply Ascii.eqb_eq in Hc. intros Hrest.
    destruct (IH s Hrest) as (w & -> & <-).
    exists (String c w). simpl. now rewrite Hc.
Qed.

Lemma match_literal_complete (w rest : string) :
  match_literal (lower w) (w +:+ rest) = Some rest.
Proof.
  induction w as [|c w IH]; simpl; [reflexivity|].
  now rewrite Ascii.eqb_refl.
Qed.

Lemma match_alternatives_sound (alts : list string) (s a rest : string) :
  match_alternatives alts s = Some (a, rest) ->
  In a alts /\ exists w, s = w +:+ rest /\ lower w = a.
Proof.
  induction alts as [|a0 alts IH]; simpl; [discriminate|].
  destruct (match_literal a0 s) as [r|] eqn:Hlit.
  - intros [= <- <-]. split; [now left|]. now apply match_literal_sound.
  - intros Hrest. destruct (IH Hrest) as [Hin Hw]. split; [now right|exact Hw].
Qed.

Lemma match_alternatives_complete (alts : list string) (w rest : string) :
  In (lower w) alts ->
  exists a rest', match_alternatives alts (w +:+ rest) = Some (a, rest').
Proof.
  induction alts as [|a0 alts IH]; intros Hin; [destruct Hin|].
  simpl. destruct (match_literal a0 (w +:+ rest)) as [r|] eqn:Hlit; [eauto|].
  destruct Hin as [->|Hin]; [|auto].
  rewrite match_literal_complete in Hlit. discriminate.
Qed.

Lemma span_digits_sound (s ds rest : string) :
  span_digits s = (ds, rest) ->
  s = ds +:+ rest /\ all_digits ds = true.
Proof.
  revert ds rest. induction s as [|c s IH]; intros ds rest; simpl.
  - intros [= <- <-]. auto.
  - destruct (is_digit c) eqn:Hc.
    + destruct (span_digits s) as [ds' rest'] eqn:Hs.
      intros [= <- <-]. destruct (IH ds' rest' eq_refl) as [-> Hd].
      simpl. now rewrite Hc.
    + intros [= <- <-]. auto.
Qed.

Lemma space_not_digit (c : ascii) : is_space c = true -> is_digit c = false.
Proof.
  unfold is_space, is_digit. intros Hs.
  apply not_true_is_false. intros Hd.
  apply andb_true_iff in Hd as [H1 H2].
  apply Nat.leb_le in H1, H2.
  repeat (apply orb_true_iff in Hs as [Hs|Hs]);
    try (apply andb_true_iff in Hs as [H3 H4]; apply Nat.leb_le in H3, H4);
    try apply Nat.eqb_eq in Hs; lia.
Qed.

Lemma span_digits_complete (ds : string) (c : ascii) (rest : string) :
  all_digits ds = true -> is_digit c = false ->
  span_digits (ds +:+ String c rest) = (ds, String c rest).
Proof.
  intros Hds Hc. induction ds as [|d ds IH]; simpl.
  - now rewrite Hc.
  - simpl in Hds. apply andb_true_iff in Hds as [Hd Hds].
    rewrite Hd, (IH Hds). reflexivity.
Qed.

End PatternFacts.

Section PatternShape.

Lemma match_space_sound (s r : string) :
  match_space s = Some r -> exists c, s = String c r /\ is_space c = true.
Proof.
  destruct s as [|c s]; simpl; [discriminate|].
  destruct (is_space c) eqn:Hc; [|discriminate].
  intros [= <-]. eauto.
Qed.

Lemma match_here_unfold (s : string) :
  match_here s =
  match match_alternatives ["last"; "past"] s with
  | None => None
  | Some (_, r1) =>
      match match_space r1 with
      | None => None
      | Some r2 =>
          match span_digits r2 with
          | (EmptyString, _) => None
          | (String d ds, r3) =>
              match match_space r3 with
              | None => None
              | Some r4 =>
                  match match_alternatives ["days"; "weeks"; "months"] r4 with
                  | None => None
                  | Some (unit, _) => Some (String d ds, unit)
                  end
              end
          end
      end
  end.
Proof.
  unfold match_here.
  destruct (match_alternatives ["last"; "past"] s) as [[a r1]|]; [|reflexivity].
  cbn [mbind option_bind]. destruct (match_space r1) as [r2|]; [|reflexivity].
  cbn [mbind option_bind]. destruct (span_digits r2) as [[|d ds] r3];
    [reflexivity|].
  destruct (match_space r3) as [r4|]; [|reflexivity].
  cbn [mbind option_bind].
  destruct (match_alternatives ["days"; "weeks"; "months"] r4) as [[un r5]|];
    reflexivity.
Qed.

Lemma match_here_sound (s ds unit : string) :
  match_here s = Some (ds, unit) -> pattern_at s ds unit.
Proof.
  rewrite match_here_unfold.
  destruct (match_alternatives ["last"; "past"] s) as [[a r1]|] eqn:Hword;
    [|discriminate].
  apply match_alternatives_sound in Hword as (Hin & w & -> & Hw).
  destruct (match_space r1) as [r2|] eqn:Hsp1; [|discriminate].
  apply match_space_sound in Hsp1 as (sp1 & -> & Hsp1).
  destruct (span_digits r2) as [ds' r3] eqn:Hds.
  apply span_digits_sound in Hds as (-> & Hdigits).
  destruct ds' as [|d ds']; [discriminate|].
  destruct (match_space r3) as [r4|] eqn:Hsp2; [|discriminate].
  apply match_space_sound in Hsp2 as (sp2 & -> & Hsp2).
  destruct (match_alternatives ["days"; "weeks"; "months"] r4)
    as [[un r5]|] eqn:Hunit; [|discriminate].
  apply match_alternatives_sound in Hunit as (Hun & u & -> & Hu).
  intros [= <- <-].
  exists w, sp1, sp2, u, r5. rewrite Hw. repeat split; auto.
Qed.

(** A string whose lower-cased form is a literal of four, five or six
    letters is made of as many characters. *)
Ltac letters w H :=
  repeat (destruct w as [|? w]; simpl in H; [discriminate H|];
          injection H as ? H);
  destruct w; simpl in H; [clear H | discriminate H].

Lemma match_here_complete (s ds unit : string) :
  pattern_at s ds unit -> match_here s = Some (ds, unit).
Proof.
  intros (w & sp1 & sp2 & u & rest & -> & Hw & Hsp1 & Hne & Hds & Hsp2
          & Hu & Hunit).
  assert (Hword : match_alternatives ["last"; "past"]
                    (w +:+ String sp1 (ds +:+ String sp2 (u +:+ rest)))
                  = Some (lower w, String sp1 (ds +:+ String sp2 (u +:+ rest)))).
  { destruct Hw as [Hw|[Hw|[]]]; rewrite <- Hw; symmetry in Hw;
      letters w Hw; simpl;
      repeat match goal with
             | H : lower_char _ = _ |- _ => rewrite H; clear H
             end; reflexivity. }
  assert (Hun : match_alternatives ["days"; "weeks"; "months"] (u +:+ rest)
                = Some (unit, rest)).
  { subst unit.
    destruct Hunit as [Hu|[Hu|[Hu|[]]]]; rewrite <- Hu; symmetry in Hu;
      letters u Hu; simpl;
      repeat match goal with
             | H : lower_char _ = _ |- _ => rewrite H; clear H
             end; reflexivity. }
  rewrite match_here_unfold, Hword.
  cbn [match_space]. rewrite Hsp1.
  rewrite (span_digits_complete ds sp2 (u +:+ rest) Hds
             (space_not_digit sp2 Hsp2)).
  destruct ds as [|d ds]; [congruence|].
  cbn [match_space]. rewrite Hsp2, Hun. reflexivity.
Qed.

Lemma re_search_sound (q ds unit : string) :
  re_search q = Some (ds, unit) ->
  exists pre s, q = pre +:+ s /\ pattern_at s ds unit.
Proof.
  induction q as [|c q IH]; simpl.
  - discriminate.
  - destruct (match_here (String c q)) as [m|] eqn:Hm.
    + intros [= ->]. exists EmptyString, (String c q).
      split; [reflexivity|]. now apply match_here_sound.
    + intros Hrest. destruct (IH Hrest) as (pre & s & -> & Hs).
      exists (String c pre), s. auto.
Qed.

Lemma re_search_none (q : string) :
  re_search q = None ->
  forall pre s, q = pre +:+ s -> match_here s = None.
Proof.
  induction q as [|c q IH]; simpl.
  - intros _ pre s Heq. destruct pre; [|discriminate].
    change (EmptyString = s) in Heq. subst. reflexivity.
  - destruct (match_here (String c q)) eqn:Hm; [discriminate|].
    intros Hrest pre s Heq. destruct pre as [|c' pre].
    + change (String c q = s) in Heq. now subst.
    + change (String c q = String c' (pre +:+ s)) in Heq.
      injection Heq as <- Hq. eapply IH; eauto.
Qed.

End PatternShape.

(** X1.  The groups [re.search] hands to [parse_date_filter], for a
    query all of whose characters are code points below 256 (the queries
    a [string] holds; beyond them [re.IGNORECASE] also folds the long s
    and the Kelvin sign onto "s" and "k", and [\d] and [\s] take further
    characters).  A match sits somewhere in such a query and reads:
    "last" or "past" in any ASCII letter case, one whitespace character,
    a non-empty run of the digits 0 to 9 (group 2), one whitespace
    character, and "days", "weeks" or "months" in any ASCII letter case
    (group 3, lower-cased).  When the search finds nothing, no position
    of the query reads like that. *)
Theorem re_search_shape (query : string) :
  (forall ds unit,
      re_search query = Some (ds, unit) ->
      exists pre s, query = pre +:+ s /\ pattern_at s ds unit)
  /\ (re_search query = None ->
      forall pre s ds unit, query = pre +:+ s -> ~ pattern_at s ds unit).
Proof.
  split.
  - intros ds unit. apply re_search_sound.
  - intros Hnone pre s ds unit Heq Hs.
    apply match_here_complete in Hs.
    rewrite (re_search_none query Hnone pre s Heq) in Hs. discriminate.
Qed.

Section NumericRule.

Lemma int_from_nonneg (ds : string) (acc : Z) :
  all_digits ds = true -> 0 <= acc -> 0 <= int_from acc ds.
Proof.
  revert acc. induction ds as [|c ds IH]; intros acc Hds Hacc; simpl; [lia|].
  simpl in Hds. apply andb_true_iff in Hds as [Hc Hds].
  apply IH; [exact Hds|].
  unfold is_digit in Hc. apply andb_true_iff in Hc as [H1 H2].
  apply Nat.leb_le in H1, H2. unfold digit_value. lia.
Qed.

Lemma int_returns (ds : string) (n : Z) :
  int ds = Returned n ->
  n = int_from 0 ds /\ (String.length ds <= int_max_str_digits)%nat.
Proof.
  unfold int.
  destruct (String.length ds <=? int_max_str_digits)%nat eqn:Hlen;
    [|discriminate].
  intros [= <-]. split; [reflexivity|]. now apply Nat.leb_le.
Qed.

Lemma int_short (ds : string) :
  (String.length ds <= int_max_str_digits)%nat ->
  int ds = Returned (int_from 0 ds).
Proof.
  intros Hlen. unfold int.
  now replace (String.length ds <=? int_max_str_digits)%nat with true
    by (symmetry; now apply Nat.leb_le).
Qed.

Lemma int_long (ds : string) :
  (int_max_str_digits < String.length ds)%nat ->
  exists msg, int ds = Raised (ValueError msg).
Proof.
  intros Hlen. unfold int.
  replace (String.length ds <=? int_max_str_digits)%nat with false
    by (symmetry; apply Nat.leb_gt; exact Hlen).
  eauto.
Qed.

Lemma re_search_groups (q ds unit : string) :
  re_search q = Some (ds, unit) ->
  0 <= int_from 0 ds /\ In unit ["days"; "weeks"; "months"]
  /\ contains "last" (lower q) || contains "past" (lower q) = true.
Proof.
  intros Hm. apply re_search_sound in Hm as (pre & s & -> & Hs).
  destruct Hs as (w & sp1 & sp2 & u & rest & -> & Hw & _ & _ & Hds & _
                  & _ & Hunit).
  split; [now apply int_from_nonneg|]. split; [exact Hunit|].
  rewrite !lower_app. apply orb_true_iff.
  destruct Hw as [<-|[<-|[]]]; [left|right]; apply contains_app.
Qed.

Variable now : datetime.
Variable dateparser_parse : string -> option datetime.

(** Rule 3 from the groups of the match. *)
Lemma parse_date_filter_rule_3 (q ds unit : string) :
  contains "last week" (lower q) = false ->
  contains "last month" (lower q) = false ->
  re_search q = Some (ds, unit) ->
  parse_date_filter now dateparser_parse q
  = match int ds with
    | Returned n =>
        if String.eqb unit "days" then window now (timedelta_days n)
        else if String.eqb unit "weeks" then window now (timedelta_days (7 * n))
        else window now (timedelta_days (30 * n))
    | Raised e => Raised e
    end.
Proof.
  intros Hweek Hmonth Hm.
  destruct (re_search_groups q ds unit Hm) as (_ & Hunit & Hgate).
  rewrite parse_date_filter_unfold, Hweek, Hmonth, Hgate, Hm.
  destruct (int ds) as [n|e]; [|reflexivity].
  destruct Hunit as [<-|[<-|[<-|[]]]]; reflexivity.
Qed.

Lemma parse_date_filter_rule_3_days (q ds unit : string) (k n : Z) :
  contains "last week" (lower q) = false ->
  contains "last month" (lower q) = false ->
  re_search q = Some (ds, unit) ->
  In (unit, k) [("days", 1); ("weeks", 7); ("months", 30)] ->
  int ds = Returned n ->
  parse_date_filter now dateparser_parse q
  = window now (timedelta_days (k * n)).
Proof.
  intros Hweek Hmonth Hm Hk Hn.
  rewrite (parse_date_filter_rule_3 q ds unit) by assumption. rewrite Hn.
  destruct Hk as [[= <- <-]|[[= <- <-]|[[= <- <-]|[]]]]; simpl;
    [now rewrite Z.mul_1_l | reflexivity | reflexivity].
Qed.

Lemma window_overflow (d : Z) :
  1 <= ordinal now -> ordinal now <= d ->
  exists msg, window now (timedelta_days d) = Raised (OverflowError msg).
Proof.
  intros Hvalid Hd. unfold window, timedelta_days.
  destruct (Z.abs d <=? 999999999); simpl; [|eauto].
  unfold datetime_sub.
  replace (1 <=? ordinal now - d) with false
    by (symmetry; apply Z.leb_gt; lia).
  simpl. eauto.
Qed.

End NumericRule.

(** ** Decimal numerals and [int] *)

Section Decimal.

Lemma append_String (c : ascii) (a b : string) :
  String c a +:+ b = String c (a +:+ b).
Proof. reflexivity. Qed.

Lemma append_empty (b : string) : EmptyString +:+ b = b.
Proof. reflexivity. Qed.

Lemma append_assoc (a b c : string) : (a +:+ b) +:+ c = a +:+ (b +:+ c).
Proof.
  induction a as [|x a IH]; [reflexivity|].
  rewrite !append_String. now rewrite IH.
Qed.

Lemma length_append (a b : string) :
  String.length (a +:+ b) = (String.length a + String.length b)%nat.
Proof.
  induction a as [|x a IH]; [reflexivity|].
  rewrite append_String. simpl. now rewrite IH.
Qed.

Lemma int_from_app (a b : string) (acc : Z) :
  int_from acc (a +:+ b) = int_from (int_from acc a) b.
Proof.
  revert acc. induction a as [|x a IH]; intros acc; [reflexivity|].
  rewrite append_String. simpl. apply IH.
Qed.

Lemma all_digits_app (a b : string) :
  all_digits (a +:+ b) = all_digits a && all_digits b.
Proof.
  induction a as [|x a IH]; [reflexivity|].
  rewrite append_String. simpl. now rewrite IH, andb_assoc.
Qed.

Lemma digit_char_digit (d : nat) :
  (d < 10)%nat ->
  is_digit (digit_char d) = true
  /\ digit_value (digit_char d) = Z.of_nat d.
Proof.
  intros Hd. unfold is_digit, digit_value, digit_char.
  rewrite nat_ascii_embedding by lia.
  split; [|lia].
  apply andb_true_iff. split; apply Nat.leb_le; lia.
Qed.

Lemma all_digits_String (c : ascii) (s : string) :
  all_digits (String c s) = is_digit c && all_digits s.
Proof. reflexivity. Qed.

Lemma int_from_String (c : ascii) (s : string) (acc : Z) :
  int_from acc (String c s) = int_from (10 * acc + digit_value c) s.
Proof. reflexivity. Qed.

Lemma decimal_from_S (fuel n : nat) (acc : string) :
  decimal_from (S fuel) n acc
  = if (n <? 10)%nat then String (digit_char (n mod 10)) acc
    else decimal_from fuel (n / 10) (String (digit_char (n mod 10)) acc).
Proof. reflexivity. Qed.

Lemma decimal_from_O (n : nat) (acc : string) :
  decimal_from 0 n acc = String (digit_char (n mod 10)) acc.
Proof. reflexivity. Qed.

(** A number below ten is written with one digit. *)
Lemma decimal_one_digit (n : nat) (acc : string) :
  (n < 10)%nat ->
  exists p, String (digit_char (n mod 10)) acc = p +:+ acc
    /\ p <> EmptyString
    /\ all_digits p = true
    /\ int_from 0 p = Z.of_nat n
    /\ forall k, (1 <= k)%nat -> (n < 10 ^ k)%nat ->
                 (String.length p <= k)%nat.
Proof.
  intros Hn. exists (String (digit_char n) EmptyString).
  rewrite Nat.mod_small by exact Hn.
  destruct (digit_char_digit n Hn) as [Hd Hv].
  split; [reflexivity|]. split; [discriminate|].
  split; [rewrite all_digits_String, Hd; reflexivity|].
  split; [rewrite int_from_String, Hv; change (int_from ?a "") with a; lia|].
  intros k Hk _. change (String.length (String (digit_char n) "")) with 1%nat.
  exact Hk.
Qed.

(** What [decimal_from] puts in front of its accumulator. *)
Lemma decimal_from_spec (fuel : nat) :
  forall (n : nat) (acc : string),
    (n <= fuel)%nat ->
    exists p, decimal_from fuel n acc = p +:+ acc
      /\ p <> EmptyString
      /\ all_digits p = true
      /\ int_from 0 p = Z.of_nat n
      /\ forall k, (1 <= k)%nat -> (n < 10 ^ k)%nat ->
                   (String.length p <= k)%nat.
Proof.
  induction fuel as [|fuel IH]; intros n acc Hfuel.
  - rewrite decimal_from_O. apply decimal_one_digit. lia.
  - rewrite decimal_from_S. destruct (n <? 10)%nat eqn:Hsmall.
    + apply decimal_one_digit. now apply Nat.ltb_lt.
    + apply Nat.ltb_ge in Hsmall.
      assert (Hdiv : (n / 10 < n)%nat) by (apply Nat.div_lt; lia).
      destruct (IH (n / 10)%nat (String (digit_char (n mod 10)) acc))
        as (p & -> & Hne & Hdigits & Hval & Hlen); [lia|].
      assert (Hmod : (n mod 10 < 10)%nat) by (apply Nat.mod_upper_bound; lia).
      destruct (digit_char_digit (n mod 10) Hmod) as [Hd Hv].
      exists (p +:+ String (digit_char (n mod 10)) EmptyString).
      split; [now rewrite append_assoc|].
      split; [destruct p; [congruence | discriminate]|].
      split; [rewrite all_digits_app, Hdigits, all_digits_String, Hd;
              reflexivity|].
      split.
      * rewrite int_from_app, Hval, int_from_String, Hv.
        change (int_from ?a "") with a.
        pose proof (Nat.div_mod_eq n 10) as Hdm. lia.
      * intros k Hk Hn. rewrite length_append.
        change (String.length (String (digit_char (n mod 10)) "")) with 1%nat.
        destruct k as [|k]; [lia|].
        destruct k as [|k]; [rewrite Nat.pow_1_r in Hn; lia|].
        assert (Hq : (n / 10 < 10 ^ S k)%nat).
        { apply Nat.Div0.div_lt_upper_bound.
          rewrite (Nat.pow_succ_r' 10 (S k)) in Hn. lia. }
        specialize (Hlen (S k) ltac:(lia) Hq). lia.
Qed.

Lemma decimal_spec (n : nat) :
  decimal n <> EmptyString
  /\ all_digits (decimal n) = true
  /\ int_from 0 (decimal n) = Z.of_nat n
  /\ forall k, (1 <= k)%nat -> (n < 10 ^ k)%nat ->
               (String.length (decimal n) <= k)%nat.
Proof.
  unfold decimal.
  destruct (decimal_from_spec n n EmptyString (le_n n))
    as (p & -> & Hne & Hdigits & Hval & Hlen).
  assert (Hnil : p +:+ EmptyString = p).
  { clear. induction p as [|c p IH]; [reflexivity|].
    rewrite append_String. now rewrite IH. }
  rewrite Hnil. auto.
Qed.

End Decimal.



(** ** Queries of the form "<word> <N> <unit>" *)

Section NumeralQueries.

Lemma re_search_here (s : string) (m : string * string) :
  match_here s = Some m -> re_search s = Some m.
Proof. intros Hm. destruct s; cbn [re_search]; rewrite Hm; reflexivity. Qed.

Lemma is_digit_lower (c : ascii) : is_digit c = true -> lower_char c = c.
Proof.
  unfold is_digit, lower_char. cbv zeta. intros Hc.
  apply andb_true_iff in Hc as [H1 H2]. apply Nat.leb_le in H1, H2.
  replace (65 <=? nat_of_ascii c)%nat with false
    by (symmetry; apply Nat.leb_gt; lia).
  replace (192 <=? nat_of_ascii c)%nat with false
    by (symmetry; apply Nat.leb_gt; lia).
  reflexivity.
Qed.

Lemma lower_digits (ds : string) : all_digits ds = true -> lower ds = ds.
Proof.
  induction ds as [|c ds IH]; [reflexivity|].
  rewrite all_digits_String. intros [Hc Hds]%andb_true_iff.
  cbn [lower]. now rewrite is_digit_lower, IH.
Qed.

Lemma contains_cons (needle : string) (c : ascii) (r : string) :
  contains needle (String c r)
  = String.prefix needle (String c r) || contains needle r.
Proof. reflexivity. Qed.

Lemma prefix_head_neq (a b : ascii) (s1 s2 : string) :
  a <> b -> String.prefix (String a s1) (String b s2) = false.
Proof.
  intros Hne. cbn [String.prefix].
  destruct (ascii_dec a b); [contradiction | reflexivity].
Qed.

Lemma prefix_head_eq (a : ascii) (s1 s2 : string) :
  String.prefix (String a s1) (String a s2) = String.prefix s1 s2.
Proof.
  cbn [String.prefix]. destruct (ascii_dec a a); [reflexivity | contradiction].
Qed.

Lemma digit_neq (c d : ascii) :
  is_digit d = true -> is_digit c = false -> c <> d.
Proof. intros Hd Hc ->. congruence. Qed.

(** A phrase that starts with a letter is not found inside a numeral. *)
Lemma contains_skip_digits (c : ascii) (needle ds rest : string) :
  is_digit c = false -> all_digits ds = true ->
  contains (String c needle) (ds +:+ rest) = contains (String c needle) rest.
Proof.
  intros Hc. induction ds as [|d ds IH]; [reflexivity|].
  rewrite all_digits_String. intros [Hd Hds]%andb_true_iff.
  rewrite append_String, contains_cons, prefix_head_neq, IH;
    [reflexivity | exact Hds | now apply (digit_neq c d)].
Qed.

Lemma numeral_query_phrases (word unit ds phrase : string) :
  In word ["last"; "past"] -> In unit ["days"; "weeks"; "months"] ->
  ds <> EmptyString -> all_digits ds = true ->
  In phrase ["last week"; "last month"] ->
  contains phrase (word +:+ " " +:+ ds +:+ " " +:+ unit) = false.
Proof.
  intros Hword Hunit Hne Hds Hphrase.
  destruct ds as [|d ds]; [congruence|].
  pose proof Hds as Hall.
  rewrite all_digits_String in Hds. apply andb_true_iff in Hds as [Hd Hds].
  assert (Hskip : forall rest,
             contains phrase (String d ds +:+ rest) = contains phrase rest).
  { intros rest.
    destruct Hphrase as [<-|[<-|[]]];
      now apply (contains_skip_digits "l"). }
  destruct Hword as [<-|[<-|[]]];
    rewrite !append_String, !append_empty;
    do 5 rewrite contains_cons;
    destruct Hphrase as [<-|[<-|[]]];
    repeat first
      [ rewrite prefix_head_eq
      | rewrite prefix_head_neq by discriminate
      | rewrite prefix_head_neq by (apply (digit_neq _ d Hd); reflexivity) ];
    change (String d (ds +:+ String " " unit))
      with (String d ds +:+ String " " unit);
    rewrite Hskip;
    destruct Hunit as [<-|[<-|[<-|[]]]]; reflexivity.
Qed.

Lemma numeral_query_search (word unit ds : string) :
  In word ["last"; "past"] -> In unit ["days"; "weeks"; "months"] ->
  ds <> EmptyString -> all_digits ds = true ->
  re_search (word +:+ " " +:+ ds +:+ " " +:+ unit) = Some (ds, unit).
Proof.
  intros Hword Hunit Hne Hds.
  apply re_search_here, match_here_complete.
  exists word, " "%char, " "%char, unit, EmptyString.
  split.
  { destruct Hunit as [<-|[<-|[<-|[]]]]; reflexivity. }
  split.
  { destruct Hword as [<-|[<-|[]]]; [left | right; left]; reflexivity. }
  do 4 (split; [reflexivity || assumption|]).
  split; [|exact Hunit].
  destruct Hunit as [<-|[<-|[<-|[]]]]; reflexivity.
Qed.

Lemma numeral_query_lower (word unit ds : string) :
  In word ["last"; "past"] -> In unit ["days"; "weeks"; "months"] ->
  all_digits ds = true ->
  lower (word +:+ " " +:+ ds +:+ " " +:+ unit)
  = word +:+ " " +:+ ds +:+ " " +:+ unit.
Proof.
  intros Hword Hunit Hds.
  rewrite !lower_app, (lower_digits ds Hds).
  destruct Hword as [<-|[<-|[]]];
    destruct Hunit as [<-|[<-|[<-|[]]]]; reflexivity.
Qed.

Variable now : datetime.
Variable dateparser_parse : string -> option datetime.

(** Rule 3 on the queries that are a word, a numeral and a unit. *)
Lemma parse_date_filter_numeral (word unit : string) (k : Z) (N : nat) :
  In word ["last"; "past"] ->
  In (unit, k) [("days", 1); ("weeks", 7); ("months", 30)] ->
  k * Z.of_nat N < ordinal now <= MAXORDINAL ->
  parse_date_filter now dateparser_parse
                    (word +:+ " " +:+ decimal N +:+ " " +:+ unit)
  = Returned (Some (date_of now - k * Z.of_nat N, date_of now)).
Proof.
  intros Hword Hk Hnow.
  destruct (decimal_spec N) as (Hne & Hds & Hval & Hlen).
  assert (Hunit : In unit ["days"; "weeks"; "months"]).
  { destruct Hk as [[= <- _]|[[= <- _]|[[= <- _]|[]]]];
      [left | right; left | right; right; left]; reflexivity. }
  assert (Hk1 : 1 <= k <= 30).
  { destruct Hk as [[= _ <-]|[[= _ <-]|[[= _ <-]|[]]]]; lia. }
  unfold MAXORDINAL in Hnow.
  assert (Hint : int (decimal N) = Returned (Z.of_nat N)).
  { rewrite int_short, Hval; [reflexivity|].
    assert (Hsmall : (N < 10 ^ 7)%nat).
    { apply Nat2Z.inj_lt. rewrite Nat2Z.inj_pow.
      change (Z.of_nat 10 ^ Z.of_nat 7) with 10000000. nia. }
    specialize (Hlen 7%nat ltac:(lia) Hsmall).
    unfold int_max_str_digits. lia. }
  rewrite (parse_date_filter_rule_3_days now dateparser_parse _
             (decimal N) unit k (Z.of_nat N));
    try assumption.
  - apply window_days; [nia | unfold MAXORDINAL; lia].
  - rewrite numeral_query_lower by assumption.
    apply numeral_query_phrases; try assumption. left. reflexivity.
  - rewrite numeral_query_lower by assumption.
    apply numeral_query_phrases; try assumption. right. left. reflexivity.
  - now apply numeral_query_search.
Qed.

End NumeralQueries.

(** C8.  The rules apply in a fixed order.  A query that contains "last
    week" (in any letter case) gets the seven days up to today, whatever
    else it contains and whatever the free-form parser would find in it;
    "past 2 months" gets the sixty days up to today, a month counting as
    thirty days, and so does every query made of "last" or "past", the
    decimal numeral of a number N and a unit: it gets the N, 7 N or 30 N
    days up to today for "days", "weeks" and "months", as long as that
    many days lie between the first day of the calendar and today, and
    again whatever the free-form parser would find; a query without
    temporal language (no rule matches and the free-form parser finds no
    date) gets no range.  The clock is taken to read a day that
    [datetime] can go sixty days back from. *)
Theorem parse_date_filter_precedence
    (now : datetime) (dateparser_parse : string -> option datetime)
    (Hnow : 60 < ordinal now <= MAXORDINAL) :
  (forall query,
      contains "last week" (lower query) = true ->
      parse_date_filter now dateparser_parse query
      = Returned (Some (date_of now - 7, date_of now)))
  /\ parse_date_filter now dateparser_parse "past 2 months"
     = Returned (Some (date_of now - 60, date_of now))
  /\ (forall (word unit : string) (k : Z) (N : nat),
         In word ["last"; "past"] ->
         In (unit, k) [("days", 1); ("weeks", 7); ("months", 30)] ->
         k * Z.of_nat N < ordinal now ->
         parse_date_filter now dateparser_parse
                           (word +:+ " " +:+ decimal N +:+ " " +:+ unit)
         = Returned (Some (date_of now - k * Z.of_nat N, date_of now)))
  /\ (forall query,
         contains "last week" (lower query) = false ->
         contains "last month" (lower query) = false ->
         re_search query = None ->
         dateparser_parse query = None ->
         parse_date_filter now dateparser_parse query = Returned None).
Proof.
  split; [|split; [|split]].
  - intros query Hweek. rewrite parse_date_filter_unfold, Hweek.
    apply window_days; lia.
  - apply (parse_date_filter_numeral now dateparser_parse
             "past" "months" 30 2%nat).
    + right. left. reflexivity.
    + right. right. left. reflexivity.
    + simpl. lia.
  - intros word unit k N Hword Hk HN.
    apply parse_date_filter_numeral; [assumption | assumption | lia].
  - intros query Hweek Hmonth Hpattern Hfree.
    rewrite parse_date_filter_unfold, Hweek, Hmonth, Hpattern, Hfree.
    destruct (contains "last" (lower query) || contains "past" (lower query));
      reflexivity.
Qed.

Lemma parse_date_filter_precedence_witness :
  parse_date_filter (mk_datetime 739000 0) (fun _ => Some (mk_datetime 730000 0))
                    "Results from LAST WEEK or the past 3 days, since 1999"
  = Returned (Some (738993, 739000)).
Proof.
  apply (proj1 (parse_date_filter_precedence
                  (mk_datetime 739000 0) (fun _ => Some (mk_datetime 730000 0))
                  ltac:(unfold MAXORDINAL; simpl; lia))).
  reflexivity.
Defined.

(** X2.  Rule 3.  Take a query of code points below 256 in which neither
    "last week" nor "last month" occurs and in which the pattern matches
    with the digits [ds] and a unit.  When [int] reads [ds] as the number
    N (which it does for at most 4300 digits), the range is the [k * N]
    days up to today, [k] being 1 for "days", 7 for "weeks" and 30 for
    "months", provided that many days lie between the first day of the
    calendar and today. *)
Theorem parse_date_filter_numeric
    (now : datetime) (dateparser_parse : string -> option datetime)
    (query ds unit : string) (k n : Z) :
  contains "last week" (lower query) = false ->
  contains "last month" (lower query) = false ->
  re_search query = Some (ds, unit) ->
  In (unit, k) [("days", 1); ("weeks", 7); ("months", 30)] ->
  int ds = Returned n ->
  k * n < ordinal now <= MAXORDINAL ->
  parse_date_filter now dateparser_parse query
  = Returned (Some (date_of now - k * n, date_of now)).
Proof.
  intros Hweek Hmonth Hm Hk Hint Hnow.
  rewrite (parse_date_filter_rule_3_days now dateparser_parse query ds unit k n)
    by assumption.
  destruct (re_search_groups query ds unit Hm) as (Hn & _ & _).
  apply int_returns in Hint as [-> _].
  apply window_days; [|exact Hnow].
  unfold MAXORDINAL in Hnow.
  destruct Hk as [[= <- <-]|[[= <- <-]|[[= <- <-]|[]]]]; lia.
Qed.

Lemma parse_date_filter_numeric_witness :
  parse_date_filter (mk_datetime 739000 0) (fun _ => None)
                    "reviews of the Past 6 Weeks"
  = Returned (Some (739000 - 7 * 6, 739000)).
Proof.
  apply (parse_date_filter_numeric (mk_datetime 739000 0) (fun _ => None)
           "reviews of the Past 6 Weeks" "6" "weeks" 7 6);
    try reflexivity.
  - right. left. reflexivity.
  - vm_compute. split; [reflexivity | discriminate].
Defined.

(** X3.  A look-back that reaches the first day of the calendar or beyond
    is not clamped.  Take a query of code points below 256 in which
    neither "last week" nor "last month" occurs and in which the pattern
    matches with the digits [ds] and a unit.  When [int] reads [ds] as N
    and [k * N] is at least today's ordinal, [parse_date_filter] raises
    [OverflowError]; when [ds] has more than 4300 digits, it raises the
    [ValueError] of [int]. *)
Theorem parse_date_filter_overflow
    (now : datetime) (dateparser_parse : string -> option datetime)
    (query ds unit : string) (k : Z) :
  contains "last week" (lower query) = false ->
  contains "last month" (lower query) = false ->
  re_search query = Some (ds, unit) ->
  In (unit, k) [("days", 1); ("weeks", 7); ("months", 30)] ->
  1 <= ordinal now ->
  (forall n, int ds = Returned n -> ordinal now <= k * n ->
     exists msg,
       parse_date_filter now dateparser_parse query
       = Raised (OverflowError msg))
  /\ ((int_max_str_digits < String.length ds)%nat ->
      exists msg,
        parse_date_filter now dateparser_parse query
        = Raised (ValueError msg)).
Proof.
  intros Hweek Hmonth Hm Hk Hnow. split.
  - intros n Hint Hn.
    rewrite (parse_date_filter_rule_3_days now dateparser_parse query ds unit
               k n) by assumption.
    apply window_overflow; lia.
  - intros Hlen. destruct (int_long ds Hlen) as [msg Hint].
    exists msg.
    rewrite (parse_date_filter_rule_3 now dateparser_parse query ds unit)
      by assumption.
    now rewrite Hint.
Qed.

Lemma parse_date_filter_overflow_witness :
  exists msg,
    parse_date_filter (mk_datetime 739000 0) (fun _ => None)
                      "trials of the last 30000 months"
    = Raised (OverflowError msg).
Proof.
  apply (proj1 (parse_date_filter_overflow (mk_datetime 739000 0)
                  (fun _ => None)
                  "trials of the last 30000 months" "30000" "months" 30
                  eq_refl eq_refl eq_refl
                  (or_intror (or_intror (or_introl eq_refl)))
                  ltac:(simpl; lia))
          30000 eq_refl ltac:(simpl; lia)).
Defined.

(** X4.  A query that contains "last" or "past" (in any letter case) and
    no match of the pattern is settled without the free-form parser, and
    [parse_date_filter] returns: the seven days up to today when the
    query contains "last week", else the thirty days up to today when it
    contains "last month", else no range.  The clock reads a day at least
    thirty days into the calendar. *)
Theorem parse_date_filter_returns
    (now : datetime) (dateparser_parse : string -> option datetime)
    (query : string) :
  30 < ordinal now <= MAXORDINAL ->
  contains "last" (lower query) || contains "past" (lower query) = true ->
  re_search query = None ->
  parse_date_filter now dateparser_parse query
  = Returned (if contains "last week" (lower query)
              then Some (date_of now - 7, date_of now)
              else if contains "last month" (lower query)
                   then Some (date_of now - 30, date_of now)
                   else None).
Proof.
  intros Hnow Hgate Hnone. rewrite parse_date_filter_unfold, Hnone, Hgate.
  destruct (contains "last week" (lower query)).
  { apply window_days; lia. }
  destruct (contains "last month" (lower query)).
  { apply window_days; lia. }
  reflexivity.
Qed.

Lemma parse_date_filter_returns_witness :
  parse_date_filter (mk_datetime 739000 0) (fun _ => None)
                    "the last samurai" = Returned None.
Proof.
  apply (parse_date_filter_returns (mk_datetime 739000 0) (fun _ => None)
           "the last samurai").
  - vm_compute. split; [reflexivity | discriminate].
  - reflexivity.
  - reflexivity.
Defined.

(** X5.  Rule 2.  A query that contains "last month" (in any letter case)
    and not "last week" gets the thirty days up to today, whatever the
    pattern or the free-form parser would make of it. *)
Theorem parse_date_filter_last_month
    (now : datetime) (dateparser_parse : string -> option datetime)
    (query : string) :
  30 < ordinal now <= MAXORDINAL ->
  contains "last week" (lower query) = false ->
  contains "last month" (lower query) = true ->
  parse_date_filter now dateparser_parse query
  = Returned (Some (date_of now - 30, date_of now)).
Proof.
  intros Hnow Hweek Hmonth.
  rewrite parse_date_filter_unfold, Hweek, Hmonth.
  apply window_days; lia.
Qed.

Lemma parse_date_filter_last_month_witness :
  parse_date_filter (mk_datetime 739000 0)
                    (fun _ => Some (mk_datetime 730000 0))
                    "Last Month or the past 3 days"
  = Returned (Some (738970, 739000)).
Proof.
  apply (parse_date_filter_last_month (mk_datetime 739000 0)
           (fun _ => Some (mk_datetime 730000 0))
           "Last Month or the past 3 days").
  - vm_compute. split; [reflexivity | discriminate].
  - reflexivity.
  - reflexivity.
Defined.

(** X6.  A range that comes from rules 1 to 3 is a proper one: for a
    query that contains "last" or "past" (in any letter case), a returned
    range starts on a day of the calendar that is not after its end. *)
Theorem parse_date_filter_range_ordered
    (now : datetime) (dateparser_parse : string -> option datetime)
    (query : string) (range_start range_end : date) :
  contains "last" (lower query) || contains "past" (lower query) = true ->
  parse_date_filter now dateparser_parse query
    = Returned (Some (range_start, range_end)) ->
  1 <= range_start <= range_end.
Proof.
  intros Hgate. rewrite parse_date_filter_unfold, Hgate.
  assert (Hw : forall d, 0 <= d ->
             window now (timedelta_days d)
               = Returned (Some (range_start, range_end)) ->
             1 <= range_start <= range_end).
  { intros d Hd Hrun.
    apply window_returns in Hrun as (td & Htd & Hs & [= -> ->]).
    unfold timedelta_days in Htd.
    destruct (Z.abs d <=? 999999999); [|discriminate].
    injection Htd as <-. lia. }
  destruct (contains "last week" (lower query)); [apply Hw; lia|].
  destruct (contains "last month" (lower query)); [apply Hw; lia|].
  destruct (re_search query) as [[ds unit]|] eqn:Hm; [|discriminate].
  destruct (re_search_groups query ds unit Hm) as (Hn & _ & _).
  destruct (int ds) as [n|e] eqn:Hint; [|discriminate].
  apply int_returns in Hint as [-> _].
  destruct (String.eqb unit "days"); [apply Hw; lia|].
  destruct (String.eqb unit "weeks"); [apply Hw; lia|].
  destruct (String.eqb unit "months"); [apply Hw; lia|].
  discriminate.
Qed.

Lemma parse_date_filter_range_ordered_witness :
  1 <= 738979 <= 739000.
Proof.
  apply (parse_date_filter_range_ordered (mk_datetime 739000 0)
           (fun _ => None) "oncology trials from the past 3 weeks"
           738979 739000); reflexivity.
Defined.

(** ** Search: what it reads and what it leaves alone *)

Section OnlyPrints.

Context {F : Type}.

Lemma printed_nil (w : world F) : printed w [] = w.
Proof. destruct w. unfold printed. simpl. now rewrite app_nil_r. Qed.

Lemma printed_app (w : world F) (l1 l2 : list string) :
  printed (printed w l1) l2 = printed w (l1 ++ l2)%list.
Proof. unfold printed. simpl. now rewrite <- app_assoc. Qed.

Lemma only_prints_ret {A : Type} (a : A) : only_prints (F := F) (mret a).
Proof. intros w. exists []. simpl. now rewrite printed_nil. Qed.

Lemma only_prints_raise {A : Type} (e : exn) : only_prints (F := F) (A := A) (raise e).
Proof. intros w. exists []. simpl. now rewrite printed_nil. Qed.

Lemma only_prints_lift {A : Type} (r : result A) : only_prints (F := F) (lift r).
Proof. intros w. exists []. simpl. now rewrite printed_nil. Qed.

Lemma only_prints_gets {A : Type} (f : world F -> A) : only_prints (gets f).
Proof. intros w. exists []. simpl. now rewrite printed_nil. Qed.

Lemma only_prints_print (line : string) : only_prints (F := F) (print line).
Proof. intros w. exists [line]. reflexivity. Qed.

Lemma only_prints_bind {A B : Type} (m : M F A) (f : A -> M F B) :
  only_prints m -> (forall a, only_prints (f a)) -> only_prints (m ≫= f).
Proof.
  intros Hm Hf w. unfold mbind, M_bind.
  destruct (Hm w) as (l1 & H1). destruct (m w) as [w1 [a|e]]; simpl in *.
  - destruct (Hf a w1) as (l2 & H2). exists (l1 ++ l2)%list.
    rewrite H2, H1. apply printed_app.
  - eauto.
Qed.

Lemma only_prints_try {A : Type} (body : M F A) (handler : exn -> M F A) :
  only_prints body -> (forall e, only_prints (handler e)) ->
  only_prints (try_except body handler).
Proof.
  intros Hb Hh w. unfold try_except.
  destruct (Hb w) as (l1 & H1). destruct (body w) as [w1 [a|e]]; simpl in *.
  - eauto.
  - destruct (Hh e w1) as (l2 & H2). exists (l1 ++ l2)%list.
    rewrite H2, H1. apply printed_app.
Qed.

End OnlyPrints.

Create HintDb only_prints.
#[local] Hint Resolve only_prints_ret only_prints_raise only_prints_lift
  only_prints_gets only_prints_print : only_prints.

Ltac only_prints :=
  repeat first
    [ apply only_prints_bind; [|intros ?]
    | apply only_prints_try; [|intros ?]
    | solve [auto with only_prints]
    | match goal with
      | |- only_prints (match ?x with _ => _ end) => destruct x
      | |- only_prints (if ?b then _ else _) => destruct b
      end ].

Section SearchFootprint.

Import milvus_search.

Context {F : Type}.
Variable collection_name : string.
Variable now : datetime.
Variable dateparser_parse : string -> option datetime.
Variable encode : string -> result (vector F).
Variable collection_load : collection F -> option exn.
Variable collection_search :
  collection F -> list (vector F) -> Z -> Z -> result (list (list Z)).

Lemma only_prints_connect :
  only_prints (connect_to_milvus collection_name collection_load).
Proof. unfold connect_to_milvus. only_prints. Qed.

Lemma only_prints_fetch (ids : list Z) (range : option date_range) :
  only_prints (F := F) (fetch_filtered_articles_by_ids ids range).
Proof. unfold fetch_filtered_articles_by_ids. only_prints. Qed.

Lemma only_prints_search (query : string) (nprobe limit : Z) :
  only_prints (search_articles collection_name now dateparser_parse encode
                 collection_load collection_search query nprobe limit).
Proof.
  unfold search_articles. pose proof only_prints_connect.
  pose proof only_prints_fetch. only_prints.
Qed.

End SearchFootprint.

(** X7.  Search reads and never writes.  However a call of
    [search_articles] ends (a result, an exception, any fault of the
    embedder, the index or the date parser), it leaves the collections of
    the Milvus server and the two MySQL tables as they were; the only
    trace of the call is the lines it printed. *)
Theorem search_articles_read_only {F : Type}
    (collection_name : string) (now : datetime)
    (dateparser_parse : string -> option datetime)
    (encode : string -> result (vector F))
    (collection_load : collection F -> option exn)
    (collection_search :
       collection F -> list (vector F) -> Z -> Z -> result (list (list Z)))
    (query : string) (nprobe limit : Z) (w : world F) :
  exists lines,
    (milvus_search.search_articles collection_name now dateparser_parse
       encode collection_load collection_search query nprobe limit w).1
    = printed w lines.
Proof. apply only_prints_search. Qed.

Section FetchFacts.

Import milvus_search.

Context {F : Type}.

Lemma selected_same_ids (w : world F) (ids ids' : list Z)
    (range : option date_range) :
  (forall a, In a (articles w) -> In (a_id a) ids <-> In (a_id a) ids') ->
  selected w ids range = selected w ids' range.
Proof.
  intros Hsame. unfold selected. apply filter_ext_in. intros r Hr.
  apply left_join_sound in Hr as (a & k & Ha & ->).
  f_equal. apply eq_true_iff_eq. rewrite !id_in_true. apply (Hsame a Ha).
Qed.

Lemma left_join_cons (a : article_row) (arts : list article_row)
    (sums : list summary_row) :
  left_join (a :: arts) sums
  = (match filter (fun s => s_article_id s = Some (a_id a)) sums with
     | [] => [row_of a None]
     | s :: l => map (fun s => row_of a (s_keywords s)) (s :: l)
     end ++ left_join arts sums)%list.
Proof. reflexivity. Qed.

Lemma filter_other_article (i : Z) (arts : list article_row)
    (sums : list summary_row) :
  ~ In i (map a_id arts) ->
  List.filter (fun r => row_id r =? i) (left_join arts sums) = [].
Proof.
  intros Hi. induction arts as [|a arts IH]; [reflexivity|].
  rewrite left_join_cons, List.filter_app, IH by (simpl in Hi; tauto).
  rewrite app_nil_r.
  assert (Hne : (a_id a =? i) = false).
  { apply Z.eqb_neq. simpl in Hi. tauto. }
  destruct (filter (fun s => s_article_id s = Some (a_id a)) sums) as [|s l].
  - simpl. unfold row_id. simpl. now rewrite Hne.
  - generalize (s :: l). intros m. induction m as [|s' m IHm]; [reflexivity|].
    simpl. unfold row_id at 1. simpl. now rewrite Hne.
Qed.

Lemma filter_own_rows (a : article_row) (rows : list (option string)) :
  List.filter (fun r => row_id r =? a_id a) (map (row_of a) rows)
  = map (row_of a) rows.
Proof.
  induction rows as [|k rows IH]; [reflexivity|].
  simpl. unfold row_id at 1. simpl. now rewrite Z.eqb_refl, IH.
Qed.

End FetchFacts.

(** X8.  Ids the relational store does not know are dropped without
    notice: appending ids that belong to no article to the candidate list
    leaves the rows the fetch returns as they are. *)
Theorem fetch_drops_unknown_ids {F : Type}
    (w : world F) (ids unknown : list Z) (range : option date_range) :
  (forall a, In a (articles w) -> ~ In (a_id a) unknown) ->
  (milvus_search.fetch_filtered_articles_by_ids (ids ++ unknown) range w).2
  = (milvus_search.fetch_filtered_articles_by_ids ids range w).2.
Proof.
  intros Hunknown.
  destruct (fetch_returns w (ids ++ unknown) range) as (w1 & -> & _).
  destruct (fetch_returns w ids range) as (w2 & -> & _).
  simpl. f_equal. apply selected_same_ids.
  intros a Ha. rewrite in_app_iff. specialize (Hunknown a Ha). tauto.
Qed.

Lemma fetch_drops_unknown_ids_witness :
  (milvus_search.fetch_filtered_articles_by_ids ([5; 2] ++ [7; 11]) None
     RankExample.store).2
  = (milvus_search.fetch_filtered_articles_by_ids [5; 2] None
       RankExample.store).2.
Proof.
  apply (fetch_drops_unknown_ids RankExample.store [5; 2] [7; 11] None).
  intros a [<-|[<-|[<-|[]]]]; simpl; intros [H|[H|[]]]; discriminate H.
Defined.

(** X9.  The join repeats a document once per summary row.  With ids that
    are unique in [articles], the joined rows of an article are: one row
    with NULL keywords when no row of [article_summaries] points to it,
    and otherwise one row per such summary row, in their order, each with
    that row's keywords. *)
Theorem left_join_rows_of_article
    (arts : list article_row) (sums : list summary_row) (a : article_row) :
  NoDup (map a_id arts) ->
  In a arts ->
  List.filter (fun r => milvus_search.row_id r =? a_id a)
              (milvus_search.left_join arts sums)
  = match filter (fun s => s_article_id s = Some (a_id a)) sums with
    | [] => [row_of a None]
    | s :: l => map (fun s => row_of a (s_keywords s)) (s :: l)
    end.
Proof.
  intros Hnodup Ha. induction arts as [|a0 arts IH]; [destruct Ha|].
  apply NoDup_cons in Hnodup as [Hfresh Hnodup].
  rewrite left_join_cons, List.filter_app.
  destruct Ha as [->|Ha].
  - rewrite filter_other_article, app_nil_r.
    2:{ intros Hin. apply Hfresh. apply list_elem_of_In. exact Hin. }
    destruct (filter (fun s => s_article_id s = Some (a_id a)) sums)
      as [|s l].
    + apply (filter_own_rows a [None]).
    + rewrite <- (map_map s_keywords (row_of a)). apply filter_own_rows.
  - rewrite IH by assumption.
    assert (Hne : (a_id a0 =? a_id a) = false).
    { apply Z.eqb_neq. intros Heq. apply Hfresh. rewrite Heq.
      apply list_elem_of_In, in_map, Ha. }
    assert (Hnone : forall rows : list (option string),
               List.filter (fun r => milvus_search.row_id r =? a_id a)
                           (map (row_of a0) rows) = []).
    { induction rows as [|k rows IHr]; [reflexivity|].
      simpl. unfold milvus_search.row_id at 1. simpl. now rewrite Hne. }
    destruct (filter (fun s => s_article_id s = Some (a_id a0)) sums)
      as [|s l].
    + change [row_of a0 None] with (map (row_of a0) [None]).
      rewrite Hnone. reflexivity.
    + rewrite <- (map_map s_keywords (row_of a0)), Hnone. reflexivity.
Qed.

Lemma left_join_rows_of_article_witness :
  List.filter (fun r => milvus_search.row_id r =? 2)
    (milvus_search.left_join
       [RankExample.doc 2 "two"; RankExample.doc 5 "five"]
       [mk_summary 1 (Some 2) (Some "s") (Some "tumour, growth");
        mk_summary 2 (Some 2) (Some "s") (Some "cells")])
  = [row_of (RankExample.doc 2 "two") (Some "tumour, growth");
     row_of (RankExample.doc 2 "two") (Some "cells")].
Proof.
  apply (left_join_rows_of_article
           [RankExample.doc 2 "two"; RankExample.doc 5 "five"]
           [mk_summary 1 (Some 2) (Some "s") (Some "tumour, growth");
            mk_summary 2 (Some 2) (Some "s") (Some "cells")]
           (RankExample.doc 2 "two")).
  - apply NoDup_cons. split; [|apply NoDup_singleton].
    intros Hin. apply list_elem_of_In in Hin as [Hin|[]]. discriminate Hin.
  - now left.
Defined.

Section SearchEdges.

Import milvus_search.

Context {F : Type}.
Variable collection_name : string.
Variable now : datetime.
Variable dateparser_parse : string -> option datetime.
Variable encode : string -> result (vector F).
Variable collection_load : collection F -> option exn.
Variable collection_search :
  collection F -> list (vector F) -> Z -> Z -> result (list (list Z)).

Let search := search_articles collection_name now dateparser_parse encode
                collection_load collection_search.

(** X10.  A query the embedder cannot encode ends the search at once:
    the exception of the embedder reaches the caller, nothing is printed
    and the Milvus server is not asked for the collection. *)
Theorem search_articles_embedding_fault
    (w : world F) (query : string) (nprobe limit : Z) (e : exn) :
  encode query = Raised e ->
  search query nprobe limit w = (w, Raised e).
Proof.
  intros Henc. unfold search, search_articles. run_M. now rewrite Henc.
Qed.

(** X11.  A vector search without hits gives the empty list, provided
    the date filter of the query is computed without an exception
    ([parse_date_filter] returns, with a range or without): the ids are
    printed, the relational store is not queried, and the two notices of
    the fetch and of the search follow. *)
Theorem search_articles_no_hits
    (w : world F) (query : string) (nprobe limit : Z)
    (v : vector F) (c : collection F) (more : list (list Z))
    (range : option date_range) :
  encode query = Returned v ->
  milvus w !! collection_name = Some c ->
  collection_load c = None ->
  collection_search c [v] nprobe limit = Returned ([] :: more) ->
  parse_date_filter now dateparser_parse query = Returned range ->
  search query nprobe limit w
  = (printed w ["Milvus collection '" +:+ collection_name
                +:+ "' loaded into memory.";
                "Milvus returned IDs: []";
                "No article IDs to fetch.";
                "No matching articles found in MySQL."],
     Returned []).
Proof.
  intros Henc Hcoll Hload Hsearch Hrange.
  unfold search, search_articles, connect_to_milvus,
    fetch_filtered_articles_by_ids.
  run_M. rewrite Henc, Hcoll, Hload. simpl. rewrite Hcoll, Hsearch. simpl.
  rewrite Hrange. simpl. rewrite !printed_app. reflexivity.
Qed.

(** X12.  A search that comes back without any result list is handled
    like a fault of the search: [results[0]] raises [IndexError], the
    handler prints it and the call returns the empty list. *)
Theorem search_articles_no_result_list
    (w : world F) (query : string) (nprobe limit : Z)
    (v : vector F) (c : collection F) :
  encode query = Returned v ->
  milvus w !! collection_name = Some c ->
  collection_load c = None ->
  collection_search c [v] nprobe limit = Returned [] ->
  search query nprobe limit w
  = (printed w ["Milvus collection '" +:+ collection_name
                +:+ "' loaded into memory.";
                "Milvus search error: list index out of range"],
     Returned []).
Proof.
  intros Henc Hcoll Hload Hsearch.
  unfold search, search_articles, connect_to_milvus.
  run_M. rewrite Henc, Hcoll, Hload. simpl. rewrite Hcoll, Hsearch. simpl.
  rewrite !printed_app. reflexivity.
Qed.

(** X13.  The date filter is computed outside the guarded block: when
    the vector search has succeeded and [parse_date_filter] raises, the
    exception reaches the caller of [search_articles], after the ids were
    printed and before the relational store is queried. *)
Theorem search_articles_date_fault
    (w : world F) (query : string) (nprobe limit : Z)
    (v : vector F) (c : collection F) (ids : list Z) (more : list (list Z))
    (e : exn) :
  encode query = Returned v ->
  milvus w !! collection_name = Some c ->
  collection_load c = None ->
  collection_search c [v] nprobe limit = Returned (ids :: more) ->
  parse_date_filter now dateparser_parse query = Raised e ->
  search query nprobe limit w
  = (printed w ["Milvus collection '" +:+ collection_name
                +:+ "' loaded into memory.";
                "Milvus returned IDs: " +:+ str_int_list ids],
     Raised e).
Proof.
  intros Henc Hcoll Hload Hsearch Hrange.
  unfold search, search_articles, connect_to_milvus.
  run_M. rewrite Henc, Hcoll, Hload. simpl. rewrite Hcoll, Hsearch. simpl.
  rewrite Hrange. simpl. rewrite !printed_app. reflexivity.
Qed.

End SearchEdges.

Lemma search_articles_embedding_fault_witness :
  milvus_search.search_articles (F := Z) "articles" (mk_datetime 739000 0)
    (fun _ => None) (fun _ => Raised (LibraryError "encoding fault"))
    (fun _ => None) (fun _ _ _ _ => Returned [[5; 2; 9]])
    "tumour growth" 20 10 RankExample.store
  = (RankExample.store, Raised (LibraryError "encoding fault")).
Proof.
  apply (search_articles_embedding_fault "articles" (mk_datetime 739000 0)
           (fun _ => None) (fun _ => Raised (LibraryError "encoding fault"))
           (fun _ => None) (fun _ _ _ _ => Returned [[5; 2; 9]])
           RankExample.store "tumour growth" 20 10
           (LibraryError "encoding fault") eq_refl).
Defined.

Lemma search_articles_no_hits_witness :
  milvus_search.search_articles (F := Z) "articles" (mk_datetime 739000 0)
    (fun _ => None) (fun _ => Returned []) (fun _ => None)
    (fun _ _ _ _ => Returned [[]])
    "tumour growth" 20 10 RankExample.store
  = (printed RankExample.store
       ["Milvus collection 'articles' loaded into memory.";
        "Milvus returned IDs: []";
        "No article IDs to fetch.";
        "No matching articles found in MySQL."],
     Returned []).
Proof.
  apply (search_articles_no_hits "articles" (mk_datetime 739000 0)
           (fun _ => None) (fun _ => Returned []) (fun _ => None)
           (fun _ _ _ _ => Returned [[]])
           RankExample.store "tumour growth" 20 10 []
           (mk_collection (mk_schema [] "") []) [] None
           eq_refl eq_refl eq_refl eq_refl eq_refl).
Defined.

Lemma search_articles_no_result_list_witness :
  milvus_search.search_articles (F := Z) "articles" (mk_datetime 739000 0)
    (fun _ => None) (fun _ => Returned []) (fun _ => None)
    (fun _ _ _ _ => Returned [])
    "tumour growth" 20 10 RankExample.store
  = (printed RankExample.store
       ["Milvus collection 'articles' loaded into memory.";
        "Milvus search error: list index out of range"],
     Returned []).
Proof.
  apply (search_articles_no_result_list "articles" (mk_datetime 739000 0)
           (fun _ => None) (fun _ => Returned []) (fun _ => None)
           (fun _ _ _ _ => Returned [])
           RankExample.store "tumour growth" 20 10 []
           (mk_collection (mk_schema [] "") [])
           eq_refl eq_refl eq_refl eq_refl).
Defined.

Lemma search_articles_date_fault_witness :
  milvus_search.search_articles (F := Z) "articles" (mk_datetime 739000 0)
    (fun _ => None) (fun _ => Returned []) (fun _ => None)
    (fun _ _ _ _ => Returned [[5; 2; 9]])
    "trials of the last 30000 months" 20 10 RankExample.store
  = (printed RankExample.store
       ["Milvus collection 'articles' loaded into memory.";
        "Milvus returned IDs: [5, 2, 9]"],
     Raised (OverflowError "date value out of range")).
Proof.
  apply (search_articles_date_fault "articles" (mk_datetime 739000 0)
           (fun _ => None) (fun _ => Returned []) (fun _ => None)
           (fun _ _ _ _ => Returned [[5; 2; 9]])
           RankExample.store "trials of the last 30000 months" 20 10 []
           (mk_collection (mk_schema [] "") []) [5; 2; 9] []
           (OverflowError "date value out of range")
           eq_refl eq_refl eq_refl eq_refl eq_refl).
Defined.

(** ** Index creation, display and export *)

Ltac run_T :=
  unfold mbind, milvus_search_cli.T_bind, mret, milvus_search_cli.T_ret,
    milvus_search_cli.in_world, milvus_search_cli.T_try_except,
    milvus_search_cli.input; run_M.

Section IndexCreation.

Import milvus_search_cli.

Context {F : Type}.
Variable collection_name : string.
Variable create_index_fault : collection F -> option exn.

Let create_index :=
  create_index_for_collection (F := F) collection_name create_index_fault.

Lemma create_index_cases (s : session F) :
  match milvus (base s) !! collection_name with
  | None =>
      create_index s
      = (s, Raised (ValueError ("Collection '" +:+ collection_name
                                +:+ "' does not exist in Milvus.")))
  | Some c =>
      match indexes s !! collection_name with
      | Some _ =>
          create_index s
          = (session_printed s
               ["Index already exists for collection '" +:+ collection_name
                +:+ "'. Skipping index creation."],
             Returned tt)
      | None =>
          match create_index_fault c with
          | Some e =>
              create_index s
              = (session_printed s ["Failed to create index: " +:+ str_exn e],
                 Raised e)
          | None =>
              create_index s
              = (mk_session
                   (printed (base s)
                      ["Index created successfully for collection '"
                       +:+ collection_name +:+ "'."])
                   (<[collection_name := index_params]> (indexes s))
                   (files s) (typed s) (consumed s),
                 Returned tt)
          end
      end
  end.
Proof.
  unfold create_index, create_index_for_collection.
  destruct s as [w ix fs ty n]. simpl.
  destruct (milvus w !! collection_name) as [c|] eqn:Hc.
  - destruct (ix !! collection_name) as [ip|] eqn:Hix.
    + run_T. rewrite Hc. simpl. rewrite Hix. reflexivity.
    + destruct (create_index_fault c) as [e|] eqn:He.
      * run_T. rewrite Hc. simpl. rewrite Hix, He. reflexivity.
      * run_T. rewrite Hc. simpl. rewrite Hix, He. reflexivity.
  - run_T. rewrite Hc. reflexivity.
Qed.

(** X14.  Index creation is idempotent.  After a call that returned, a
    second call finds the index, says so and returns, and the index is
    the one the first call left. *)
Theorem create_index_idempotent (s s1 : session F) :
  create_index s = (s1, Returned tt) ->
  create_index s1
  = (session_printed s1
       ["Index already exists for collection '" +:+ collection_name
        +:+ "'. Skipping index creation."],
     Returned tt).
Proof.
  intros Hfirst. pose proof (create_index_cases s) as Hs.
  pose proof (create_index_cases s1) as Hs1.
  destruct (milvus (base s) !! collection_name) as [c|] eqn:Hc;
    [|rewrite Hs in Hfirst; discriminate].
  destruct (indexes s !! collection_name) as [ip|] eqn:Hix.
  - rewrite Hs in Hfirst. injection Hfirst as <-. simpl in Hs1.
    rewrite Hc, Hix in Hs1. exact Hs1.
  - destruct (create_index_fault c) as [e|];
      rewrite Hs in Hfirst; [discriminate|].
    injection Hfirst as <-. simpl in Hs1.
    rewrite Hc, lookup_insert_eq in Hs1. exact Hs1.
Qed.

(** X15.  Index creation builds an index only where there is none.
    However the call ends, an index that exists (for this or any other
    collection) is left as it is, whatever its parameters; no file is
    written and no typed line is read. *)
Theorem create_index_keeps_indexes (s : session F) (name : string) :
  is_Some (indexes s !! name) ->
  indexes (create_index s).1 !! name = indexes s !! name
  /\ files (create_index s).1 = files s
  /\ consumed (create_index s).1 = consumed s.
Proof.
  intros Hsome. pose proof (create_index_cases s) as Hs.
  destruct (milvus (base s) !! collection_name) as [c|];
    [|rewrite Hs; auto].
  destruct (indexes s !! collection_name) as [ip|] eqn:Hix;
    [rewrite Hs; auto|].
  destruct (create_index_fault c) as [e|]; rewrite Hs; [auto|].
  simpl. split; [|auto]. apply lookup_insert_ne.
  intros <-. rewrite Hix in Hsome. destruct Hsome as [? [=]].
Qed.

(** X16.  How index creation fails.  A missing collection raises
    [ValueError] before anything is printed.  A fault of
    [collection.create_index] is printed and raised again, and no index
    is recorded for the collection. *)
Theorem create_index_failures (s : session F) :
  (milvus (base s) !! collection_name = None ->
   create_index s
   = (s, Raised (ValueError ("Collection '" +:+ collection_name
                             +:+ "' does not exist in Milvus."))))
  /\ (forall c e,
        milvus (base s) !! collection_name = Some c ->
        indexes s !! collection_name = None ->
        create_index_fault c = Some e ->
        create_index s
        = (session_printed s ["Failed to create index: " +:+ str_exn e],
           Raised e)).
Proof.
  pose proof (create_index_cases s) as Hs. split.
  - intros Hc. now rewrite Hc in Hs.
  - intros c e Hc Hix He. now rewrite Hc, Hix, He in Hs.
Qed.

End IndexCreation.

Section DisplayExport.

Import milvus_search_cli.

Context {F : Type}.
Variable open_fault : string -> option exn.
Variable str_date : date -> string.

Lemma slice_to_prefix (n : nat) (s : string) :
  exists rest, s = slice_to n s +:+ rest
               /\ String.length (slice_to n s) = Nat.min n (String.length s).
Proof.
  revert s. induction n as [|n IH]; intros s.
  - exists s. destruct s; auto.
  - destruct s as [|c s]; [exists EmptyString; auto|].
    destruct (IH s) as (rest & Hs & Hlen). exists rest. split.
    + change (String c s = String c (slice_to n s +:+ rest)).
      f_equal. exact Hs.
    + simpl. now rewrite Hlen.
Qed.

Lemma display_article_run (article : milvus_search.fetched_row) (w : world F) :
  display_article str_date article w
  = (printed w (article_lines str_date article), Returned tt).
Proof.
  destruct article as [[[[[id title] author] pd] abstract] keywords].
  unfold display_article. run_M. rewrite !printed_app. reflexivity.
Qed.

Lemma display_articles_run (articles : list milvus_search.fetched_row)
    (w : world F) :
  display_articles str_date articles w
  = (printed w (concat (map (article_lines str_date) articles)), Returned tt).
Proof.
  revert w. induction articles as [|a articles IH]; intros w.
  - simpl. unfold mret, M_ret. now rewrite printed_nil.
  - cbn [display_articles]. unfold mbind, M_bind.
    rewrite display_article_run, IH, printed_app. reflexivity.
Qed.

Lemma article_lines_length (article : milvus_search.fetched_row) :
  length (article_lines str_date article) = 7%nat.
Proof.
  destruct article as [[[[[id title] author] pd] abstract] keywords].
  reflexivity.
Qed.

Lemma concat_block {A B : Type} (f : B -> list A) (n : nat)
    (rows : list B) (i : nat) (row : B) :
  (forall r, length (f r) = n) ->
  rows !! i = Some row ->
  take n (drop (n * i) (concat (map f rows))) = f row.
Proof.
  intros Hlen. revert i.
  induction rows as [|r rows IH]; intros [|i] Hi; try discriminate.
  - injection Hi as ->. rewrite Nat.mul_0_r. cbn [drop map concat].
    apply take_app_length'. symmetry. apply Hlen.
  - cbn [map concat].
    replace (n * S i)%nat with (length (f r) + n * i)%nat
      by (rewrite Hlen; lia).
    rewrite drop_app_add. apply IH. exact Hi.
Qed.

Lemma concat_blocks_length {A B : Type} (f : B -> list A) (n : nat)
    (rows : list B) :
  (forall r, length (f r) = n) ->
  length (concat (map f rows)) = (n * length rows)%nat.
Proof.
  intros Hlen. induction rows as [|r rows IH]; cbn [map concat length].
  - lia.
  - rewrite length_app, Hlen, IH. lia.
Qed.

(** X17.  What [display_results] prints.  For an empty result it is the
    single notice "No articles to display.".  Otherwise it is the heading
    "--- Search Results ---" between two line breaks and then seven lines
    per row, in the order of the rows: for the row at position [i] the
    lines [1 + 7 i] to [7 + 7 i] are its id, its title, its authors or
    "No Authors", its date or "No Date", its abstract cut to a hundred
    characters with three dots or "No Summary Available", its keywords or
    "No Keywords", and a rule of eighty dashes.  The call never raises,
    and its [display_type] argument has no influence on any of it. *)
Theorem display_results_lines
    (articles : list milvus_search.fetched_row) (display_type : string)
    (w : world F) :
  exists lines,
    display_results str_date articles display_type w
    = (printed w lines, Returned tt)
    /\ match articles with
       | [] => lines = ["No articles to display."]
       | _ :: _ =>
           length lines = (1 + 7 * length articles)%nat
           /\ lines !! 0%nat
              = Some (newline +:+ "--- Search Results ---" +:+ newline)
           /\ forall (i : nat) (id : Z) (title : string)
                     (author : option string) (publication_date : option date)
                     (abstract keywords : option string),
                articles !! i
                = Some (id, title, author, publication_date, abstract,
                        keywords) ->
                take 7 (drop (1 + 7 * i) lines)
                = [ "ID: " +:+ str_int id;
                    "Title: " +:+ title;
                    "Authors: " +:+ py_or author "No Authors";
                    "Date: " +:+ match publication_date with
                                 | Some d => str_date d
                                 | None => "No Date"
                                 end;
                    "Abstract: "
                    +:+ match abstract with
                        | Some (String c r) =>
                            slice_to 100 (String c r) +:+ "..."
                        | Some EmptyString | None => "No Summary Available"
                        end;
                    "Keywords: " +:+ py_or keywords "No Keywords";
                    str_times "-" 80 ]
       end
    /\ forall other_type,
         display_results str_date articles other_type w
         = display_results str_date articles display_type w.
Proof.
  destruct articles as [|a articles].
  - exists ["No articles to display."]. auto.
  - exists ((newline +:+ "--- Search Results ---" +:+ newline)
            :: concat (map (article_lines str_date) (a :: articles))).
    split; [|split; [|reflexivity]].
    + unfold display_results. unfold mbind, M_bind. cbn [print].
      rewrite display_articles_run, printed_app. reflexivity.
    + split; [|split; [reflexivity|]].
      * cbn [length].
        rewrite (concat_blocks_length (article_lines str_date) 7)
          by apply article_lines_length.
        cbn [length]. lia.
      * intros i id title author publication_date abstract keywords Hi.
        change (1 + 7 * i)%nat with (S (7 * i)). cbn [drop].
        rewrite (concat_block (article_lines str_date) 7 (a :: articles) i
                   (id, title, author, publication_date, abstract, keywords))
          by (apply article_lines_length || exact Hi).
        reflexivity.
Qed.

(** X18.  The abstract is shown cut to its first hundred characters, and
    the three dots follow it whether anything was cut or not: for a row
    with a non-empty abstract, the fifth of its seven lines is
    "Abstract: ", the longest prefix of the abstract of at most 100
    characters, and "...". *)
Theorem display_article_abstract
    (id : Z) (title : string) (author : option string)
    (publication_date : option date) (abstract : string)
    (keywords : option string) (w : world F) :
  abstract <> EmptyString ->
  exists lines shown rest,
    display_article str_date
      (id, title, author, publication_date, Some abstract, keywords) w
    = (printed w lines, Returned tt)
    /\ length lines = 7%nat
    /\ lines !! 4%nat = Some ("Abstract: " +:+ shown +:+ "...")
    /\ abstract = shown +:+ rest
    /\ String.length shown = Nat.min 100 (String.length abstract).
Proof.
  intros Hne. destruct (slice_to_prefix 100 abstract) as (rest & Hs & Hlen).
  eexists _, (slice_to 100 abstract), rest.
  split; [apply display_article_run|].
  split; [reflexivity|]. split; [|auto].
  destruct abstract; [congruence | reflexivity].
Qed.


(** X19.  What [export_to_csv] writes.  For a non-empty result and a
    file that can be opened, the file named [filename] is replaced by the
    header row followed by one row per result row, in their order, every
    row of six cells; the other files, the indexes and the stores are
    left alone. *)
Theorem export_to_csv_file
    (articles : list milvus_search.fetched_row) (filename : string)
    (s : session F) :
  articles <> [] ->
  open_fault filename = None ->
  exists rows,
    export_to_csv open_fault str_date articles filename s
    = (mk_session
         (printed (base s) ["Results exported to " +:+ filename])
         (indexes s) (<[filename := csv_header :: rows]> (files s))
         (typed s) (consumed s),
       Returned tt)
    /\ rows = map (csv_row str_date) articles
    /\ Forall (fun row => length row = length csv_header) rows.
Proof.
  intros Hne Hopen. exists (map (csv_row str_date) articles).
  split; [|split; [reflexivity|]].
  - destruct articles as [|a articles]; [congruence|].
    unfold export_to_csv. rewrite Hopen. destruct s. reflexivity.
  - apply Forall_forall. intros row Hrow.
    apply list_elem_of_In, in_map_iff in Hrow as (a & <- & _).
    destruct a as [[[[[id title] author] pd] abstract] keywords].
    reflexivity.
Qed.

(** X20.  What [export_to_csv] does not write: an empty result prints a
    notice and opens no file, and a file that cannot be opened raises
    before anything is printed; in both cases no file changes. *)
Theorem export_to_csv_no_file
    (articles : list milvus_search.fetched_row) (filename : string)
    (s : session F) :
  (articles = [] ->
   export_to_csv open_fault str_date articles filename s
   = (session_printed s ["No articles to export."], Returned tt))
  /\ (forall e, articles <> [] -> open_fault filename = Some e ->
        export_to_csv open_fault str_date articles filename s
        = (s, Raised e)).
Proof.
  split.
  - intros ->. reflexivity.
  - intros e Hne Hopen. destruct articles as [|a articles]; [congruence|].
    unfold export_to_csv. rewrite Hopen. destruct s as [[] ? ? ? ?].
    reflexivity.
Qed.


End DisplayExport.

Section SearchScript.

Import milvus_search_cli.

Context {F : Type}.
Variable collection_name : string.
Variable now : datetime.
Variable dateparser_parse : string -> option datetime.
Variable encode : string -> result (vector F).
Variable collection_load : collection F -> option exn.
Variable collection_search :
  collection F -> list (vector F) -> Z -> Z -> result (list (list Z)).
Variable create_index_fault : collection F -> option exn.
Variable open_fault : string -> option exn.
Variable str_date : date -> string.

Let create_index :=
  create_index_for_collection (F := F) collection_name create_index_fault.
Let search :=
  milvus_search.search_articles collection_name now dateparser_parse encode
    collection_load collection_search.
Let script :=
  main collection_name now dateparser_parse encode collection_load
    collection_search create_index_fault open_fault str_date.

Lemma create_index_frame (s : session F) :
  files (create_index s).1 = files s
  /\ typed (create_index s).1 = typed s
  /\ consumed (create_index s).1 = consumed s.
Proof.
  pose proof (create_index_cases collection_name create_index_fault s) as Hs.
  fold create_index in Hs.
  destruct (milvus (base s) !! collection_name) as [c|]; [|rewrite Hs; auto].
  destruct (indexes s !! collection_name); [rewrite Hs; auto|].
  destruct (create_index_fault c); rewrite Hs; auto.
Qed.

Lemma display_results_run (articles : list milvus_search.fetched_row)
    (display_type : string) (w : world F) :
  exists lines,
    display_results str_date articles display_type w
    = (printed w lines, Returned tt).
Proof.
  destruct articles as [|a articles].
  - exists ["No articles to display."]. reflexivity.
  - eexists. unfold display_results. unfold mbind, M_bind. cbn [print].
    rewrite display_articles_run, printed_app. reflexivity.
Qed.

(** X22.  The files the search script writes.  After the index was made
    sure of and the search returned, the script writes a file only when
    the result is not empty and the third line typed is "yes" up to
    surrounding whitespace and letter case; the file is then the one the
    fourth line names, "results.csv" if that line is blank, and it holds
    the header and the rows of the result.  The script reads two typed
    lines for an empty result, three when the user declines, four when it
    exports. *)
Theorem main_files (s s1 : session F) (w2 : world F)
    (rows : list milvus_search.fetched_row) :
  create_index s = (s1, Returned tt) ->
  search (typed s (consumed s)) 20 10
         (printed (base s1)
            ["Enter your query: ";
             "What would you like to see? (all, titles, keywords): "])
  = (w2, Returned rows) ->
  let wants :=
    String.eqb (lower (strip (typed s (2 + consumed s)%nat))) "yes" in
  let filename := chosen_filename (typed s (3 + consumed s)%nat) in
  files (script s).1
  = match rows, wants, open_fault filename with
    | _ :: _, true, None =>
        <[filename := csv_header :: map (csv_row str_date) rows]> (files s)
    | _, _, _ => files s
    end
  /\ consumed (script s).1
     = (consumed s + match rows, wants with
                     | [], _ => 2
                     | _ :: _, false => 3
                     | _ :: _, true => 4
                     end)%nat.
Proof.
  intros Hcreate Hsearch wants filename.
  destruct (create_index_frame s) as (Hfiles & Htyped & Hconsumed).
  fold create_index in Hcreate. rewrite Hcreate in Hfiles, Htyped, Hconsumed.
  simpl in Hfiles, Htyped, Hconsumed.
  remember (script s) as out eqn:Hout.
  unfold script, main in Hout. fold create_index in Hout. fold search in Hout.
  clearbody search create_index. clear script.
  unfold mbind at 1 in Hout. unfold T_bind at 1 in Hout. rewrite Hcreate in Hout.
  destruct s1 as [w1 ix1 fs1 ty1 n1]. simpl in Hfiles, Htyped, Hconsumed.
  subst fs1 ty1 n1. cbn [base] in Hsearch.
  unfold mbind, T_bind, mret, T_ret, in_world, input in Hout.
  cbn [base indexes files typed consumed] in Hout.
  rewrite printed_app in Hout. cbn [app] in Hout. rewrite Hsearch in Hout.
  destruct rows as [|row rows].
  - subst out. simpl. split; [reflexivity | lia].
  - cbn [base indexes files typed consumed] in Hout.
    destruct (display_results_run (row :: rows)
                (lower (strip (typed s (S (consumed s))))) w2)
      as (lines & Hdisplay).
    rewrite Hdisplay in Hout.
    cbn [base indexes files typed consumed] in Hout.
    change (S (S (consumed s))) with (2 + consumed s)%nat in Hout.
    fold wants in Hout. destruct wants.
    + cbn [base indexes files typed consumed] in Hout.
      change (S (2 + consumed s)) with (3 + consumed s)%nat in Hout.
      change (match strip (typed s (3 + consumed s)%nat) with
              | EmptyString => "results.csv"
              | String c r => String c r
              end) with filename in Hout.
      unfold export_to_csv in Hout.
      destruct (open_fault filename); subst out; simpl.
      * split; [reflexivity | lia].
      * split; [reflexivity | lia].
    + subst out. simpl. split; [reflexivity | lia].
Qed.

End SearchScript.

(** ** The indexing script *)

Section SummariesDict.

Import milvus_insert_main.

Lemma summaries_dict_snoc (rows : list summary_row) (row : summary_row) :
  summaries_dict (rows ++ [row])
  = match s_article_id row with
    | Some i => <[i := s_summary row]> (summaries_dict rows)
    | None => summaries_dict rows
    end.
Proof. unfold summaries_dict. now rewrite foldl_app. Qed.

Lemma summaries_dict_from_rows (rows : list summary_row) (i : Z)
    (x : option string) :
  summaries_dict rows !! i = Some x ->
  exists row, In row rows /\ s_summary row = x.
Proof.
  induction rows as [|row rows IH] using rev_ind; [discriminate|].
  rewrite summaries_dict_snoc. intros Hx.
  assert (Hold : summaries_dict rows !! i = Some x ->
                 exists row', In row' (rows ++ [row]) /\ s_summary row' = x).
  { intros Hi. destruct (IH Hi) as (row' & Hin & Hs). exists row'.
    split; [apply in_or_app; now left | exact Hs]. }
  destruct (s_article_id row) as [j|]; [|auto].
  destruct (decide (j = i)) as [->|Hne].
  - rewrite lookup_insert_eq in Hx. injection Hx as <-.
    exists row. split; [apply in_or_app; right; now left | reflexivity].
  - rewrite lookup_insert_ne in Hx by exact Hne. auto.
Qed.

End SummariesDict.

(** X23.  The summary an article is indexed with.  The dictionary of
    [fetch_article_data] maps an article id to the summary of the last row
    of [article_summaries] that points to it, and has no entry for an id
    that no row points to. *)
Theorem summaries_dict_last_row (rows : list summary_row) (i : Z) :
  milvus_insert_main.summaries_dict rows !! i
  = s_summary <$> last (filter (fun s => s_article_id s = Some i) rows).
Proof.
  induction rows as [|row rows IH] using rev_ind; [reflexivity|].
  rewrite summaries_dict_snoc, filter_app.
  destruct (s_article_id row) as [j|] eqn:Hj.
  - destruct (decide (j = i)) as [->|Hne].
    + rewrite lookup_insert_eq.
      rewrite (filter_cons_True _ row []), filter_nil by exact Hj.
      now rewrite last_snoc.
    + rewrite lookup_insert_ne by exact Hne.
      rewrite (filter_cons_False _ row []), filter_nil, app_nil_r
        by congruence.
      exact IH.
  - rewrite (filter_cons_False _ row []), filter_nil, app_nil_r by congruence.
    exact IH.
Qed.

Section IndexScript.

Import milvus_insert milvus_insert_main.

Context {F : Type} `{Arith F}.
Variable collection_name : string.
Variable encode : option string -> result (vector F).
Variable insert_nothing : result unit.

Let script := main (F := F) collection_name encode insert_nothing.

Lemma main_unfold (w : world F) :
  script w
  = insert_weighted_embeddings collection_name encode insert_nothing
      (selected_columns (articles w)) (summaries_dict (article_summaries w)) w.
Proof. reflexivity. Qed.

(** X24.  The indexing script covers the whole table.  On a non-empty
    [articles] table, with a collection of the declared schema handed
    over and an embedder that answers every text with a vector of
    dimension 768, the script appends one entity per row of the table, in
    the order of the rows and under the ids of the rows, to the entities
    the collection holds. *)
Theorem main_indexes_table (w w1 : world F) (c1 : collection F) :
  articles w <> [] ->
  connect_to_milvus collection_name w = (w1, Returned collection_name) ->
  milvus w1 !! collection_name = Some c1 ->
  schema c1 = schema_768 ->
  (forall art text,
      In art (selected_columns (articles w)) ->
      In text (texts (summaries_dict (article_summaries w)) art) ->
      exists v, encode text = Returned v /\ length v = 768%nat) ->
  exists w' rows,
    script w = (w', Returned tt)
    /\ milvus w' !! collection_name
       = Some (mk_collection schema_768 (entities c1 ++ rows))
    /\ map snd rows = map a_id (articles w).
Proof.
  intros Hne Hconnect Hcoll Hschema Henc.
  destruct (index_batch_stores collection_name encode insert_nothing
              w w1 c1 (selected_columns (articles w))
              (summaries_dict (article_summaries w)))
    as (vs & Hvs & Hrun); auto.
  { unfold selected_columns. destruct (articles w); [congruence|discriminate]. }
  rewrite main_unfold, Hrun.
  eexists _, _. split; [reflexivity|]. split.
  - unfold indexed_world. simpl. rewrite lookup_insert_eq, Hschema.
    reflexivity.
  - rewrite snd_zip.
    + unfold selected_columns, article_id. rewrite map_map. reflexivity.
    + rewrite length_map, (Forall2_length _ _ _ Hvs). lia.
Qed.

End IndexScript.

Section ConnectFacts.

Import milvus_insert.

Context {F : Type}.
Variable collection_name : string.

Let connect := connect_to_milvus (F := F) collection_name.

Lemma validate_fields_missing_dim (w : world F) (pre post : list FieldSchema)
    (f : FieldSchema) :
  (forall g, In g pre -> field_name g <> "embeddings") ->
  field_name f = "embeddings" ->
  params f !! "dim" = None ->
  validate_fields collection_name schema_768 (pre ++ f :: post) w
  = (w, Raised (KeyError "dim")).
Proof.
  intros Hpre Hname Hdim. induction pre as [|g pre IH]; simpl.
  - apply String.eqb_eq in Hname. rewrite Hname.
    run_M. unfold params_dim. now rewrite Hdim.
  - replace (String.eqb (field_name g) "embeddings") with false.
    + apply IH. intros g' Hg'. apply Hpre. now right.
    + symmetry. apply String.eqb_neq. apply Hpre. now left.
Qed.

(** The two ways [validate_fields] returns. *)
Lemma validate_fields_returns (w w' : world F) (fs : list FieldSchema)
    (r : option string) :
  validate_fields collection_name schema_768 fs w = (w', Returned r) ->
  (r = None /\ w' = w
   /\ forall f, In f fs -> field_name f = "embeddings" ->
                params f !! "dim" = Some 768)
  \/ (r = Some collection_name
      /\ exists lines, w' = fresh_world collection_name w lines).
Proof.
  induction fs as [|f fs IH]; simpl.
  - intros [= <- <-]. left. repeat split. intros f [].
  - destruct (String.eqb (field_name f) "embeddings") eqn:Hname.
    + unfold mbind at 1. unfold M_bind, lift, params_dim.
      destruct (params f !! "dim") as [d|] eqn:Hdim; [|discriminate].
      destruct (d =? 768) eqn:Hd; cbn [negb].
      * apply Z.eqb_eq in Hd. subst d. intros Hrest.
        destruct (IH Hrest) as [(-> & -> & Hall)|Hrepair]; [left|now right].
        repeat split. intros g [<-|Hg]; auto.
      * intros Hrun. right. revert Hrun.
        unfold drop_collection, Collection_with_schema. run_M.
        rewrite lookup_delete_eq. simpl. intros [= <- <-].
        split; [reflexivity|]. eexists. unfold fresh_world, printed. simpl.
        rewrite insert_delete_eq, <- !app_assoc. reflexivity.
    + intros Hrest.
      destruct (IH Hrest) as [(-> & -> & Hall)|Hrepair]; [left|now right].
      repeat split. intros g [<-|Hg]; auto.
      intros Heq. apply String.eqb_eq in Heq. congruence.
Qed.

Lemma connect_to_milvus_handle (w w1 : world F) (handle : string) :
  connect w = (w1, Returned handle) -> handle = collection_name.
Proof.
  unfold connect, connect_to_milvus.
  unfold mbind at 1. unfold M_bind, gets.
  destruct (milvus w !! collection_name) as [c|].
  - unfold mbind at 1. unfold M_bind.
    destruct (validate_fields collection_name schema_768
                (fields (schema c)) w) as [w2 [r|e]] eqn:Hval; [|discriminate].
    apply validate_fields_returns in Hval
      as [(-> & -> & Hall)|(-> & lines & ->)];
      run_M; now intros [= <- <-].
  - unfold Collection_with_schema. run_M.
    destruct (milvus w !! collection_name); simpl.
    + destruct (decide (schema c = schema_768)); simpl; [|discriminate].
      now intros [= <- <-].
    + now intros [= <- <-].
Qed.

(** X25.  An existing collection whose "embeddings" field declares no
    dimension is neither kept nor repaired: [connect_to_milvus] raises
    [KeyError] and leaves the server and the terminal as they were. *)
Theorem connect_to_milvus_missing_dim
    (w : world F) (c : collection F) (pre post : list FieldSchema)
    (f : FieldSchema) :
  milvus w !! collection_name = Some c ->
  fields (schema c) = (pre ++ f :: post)%list ->
  (forall g, In g pre -> field_name g <> "embeddings") ->
  field_name f = "embeddings" ->
  params f !! "dim" = None ->
  connect w = (w, Raised (KeyError "dim")).
Proof.
  intros Hsome Hfields Hpre Hname Hdim.
  unfold connect, connect_to_milvus.
  unfold mbind at 1. unfold M_bind, gets. rewrite Hsome, Hfields.
  unfold mbind, M_bind.
  now rewrite (validate_fields_missing_dim w pre post f Hpre Hname Hdim).
Qed.

(** X26.  After a call of [connect_to_milvus] that returned, the
    collection passes the check: the next call keeps it, so that a repair
    is never followed by another and the vectors indexed in between
    survive.  The handle returned is always the configured name. *)
Theorem connect_to_milvus_settles (w w1 : world F) (handle : string) :
  connect w = (w1, Returned handle) ->
  handle = collection_name
  /\ connect w1
     = (printed w1 ["Connected to existing collection: " +:+ collection_name
                    +:+ " with correct schema."],
        Returned collection_name).
Proof.
  unfold connect. intros Hrun.
  assert (Hpass : forall f, In f (fields schema_768) ->
                            field_name f = "embeddings" ->
                            params f !! "dim" = Some 768).
  { intros f [<-|[<-|[]]]; [reflexivity|discriminate]. }
  destruct (milvus w !! collection_name) as [c|] eqn:Hcoll.
  - revert Hrun. unfold connect_to_milvus.
    unfold mbind at 1. unfold M_bind, gets. rewrite Hcoll.
    unfold mbind at 1. unfold M_bind.
    destruct (validate_fields collection_name schema_768
                (fields (schema c)) w) as [w2 [r|e]] eqn:Hval; [|discriminate].
    apply validate_fields_returns in Hval
      as [(-> & -> & Hall)|(-> & lines & ->)].
    + run_M. intros [= <- <-]. split; [reflexivity|].
      apply (connect_to_milvus_keeps collection_name _ c); assumption.
    + run_M. intros [= <- <-]. split; [reflexivity|].
      apply (connect_to_milvus_keeps collection_name _
               (mk_collection schema_768 [])); [|exact Hpass].
      unfold fresh_world. simpl. apply lookup_insert_eq.
  - rewrite (connect_to_milvus_creates collection_name w Hcoll) in Hrun.
    injection Hrun as <- <-. split; [reflexivity|].
    apply (connect_to_milvus_keeps collection_name _
             (mk_collection schema_768 [])); [|exact Hpass].
    unfold fresh_world. simpl. apply lookup_insert_eq.
Qed.

End ConnectFacts.

Section IndexFootprint.

Import milvus_insert.

Context {F : Type} `{Arith F}.
Variable collection_name : string.
Variable encode : option string -> result (vector F).
Variable insert_nothing : result unit.

Lemma confined_bind {A B : Type} (m : M F A) (f : A -> M F B) :
  confined_to collection_name m ->
  (forall a, confined_to collection_name (f a)) ->
  confined_to collection_name (m ≫= f).
Proof.
  intros Hm Hf w. unfold mbind, M_bind.
  destruct (Hm w) as (H1 & H2 & H3).
  destruct (m w) as [w1 [a|e]]; simpl in *; [|auto].
  destruct (Hf a w1) as (H4 & H5 & H6).
  rewrite H4, H5. repeat split; auto.
  intros other Hother. rewrite H6, H3; auto.
Qed.

Lemma confined_bind_returned {A B : Type} (m : M F A) (f : A -> M F B)
    (P : A -> Prop) :
  confined_to collection_name m ->
  (forall w w1 a, m w = (w1, Returned a) -> P a) ->
  (forall a, P a -> confined_to collection_name (f a)) ->
  confined_to collection_name (m ≫= f).
Proof.
  intros Hm HP Hf w. unfold mbind, M_bind.
  destruct (Hm w) as (H1 & H2 & H3). specialize (HP w).
  destruct (m w) as [w1 [a|e]]; simpl in *; [|auto].
  destruct (Hf a (HP w1 a eq_refl) w1) as (H4 & H5 & H6).
  rewrite H4, H5. repeat split; auto.
  intros other Hother. rewrite H6, H3; auto.
Qed.

Lemma confined_quiet {A : Type} (m : M F A) :
  (forall w, exists lines, (m w).1 = printed w lines) ->
  confined_to collection_name m.
Proof. intros Hm w. destruct (Hm w) as (lines & ->). simpl. auto. Qed.

Lemma confined_print (line : string) :
  confined_to (F := F) collection_name (print line).
Proof. apply confined_quiet, only_prints_print. Qed.

Lemma confined_lift {A : Type} (r : result A) :
  confined_to (F := F) collection_name (lift r).
Proof. apply confined_quiet, only_prints_lift. Qed.

Lemma confined_ret {A : Type} (a : A) :
  confined_to (F := F) collection_name (mret a).
Proof. apply confined_quiet, only_prints_ret. Qed.

Lemma confined_drop : confined_to (F := F) collection_name
                        (drop_collection collection_name).
Proof.
  intros w. unfold drop_collection. run_M. repeat split.
  intros other Hother. now apply lookup_delete_ne.
Qed.

Lemma confined_create (sch : CollectionSchema) :
  confined_to (F := F) collection_name
    (Collection_with_schema collection_name sch).
Proof.
  intros w. unfold Collection_with_schema. run_M.
  destruct (milvus w !! collection_name) as [c|]; simpl.
  - destruct (decide (schema c = sch)); simpl; auto.
  - repeat split. intros other Hother. now apply lookup_insert_ne.
Qed.

Lemma confined_validate (fs : list FieldSchema) :
  confined_to (F := F) collection_name
    (validate_fields collection_name schema_768 fs).
Proof.
  induction fs as [|f fs IH]; simpl; [apply confined_ret|].
  destruct (String.eqb (field_name f) "embeddings"); [|exact IH].
  apply confined_bind; [apply confined_lift|]. intros d.
  destruct (negb (d =? 768)); [|exact IH].
  apply confined_bind; [apply confined_print | intros ?].
  apply confined_bind; [apply confined_print | intros ?].
  apply confined_bind; [apply confined_drop | intros ?].
  apply confined_bind; [apply confined_create | intros ?].
  apply confined_bind; [apply confined_print | intros ?].
  apply confined_ret.
Qed.

Lemma confined_connect :
  confined_to (F := F) collection_name (connect_to_milvus collection_name).
Proof.
  unfold connect_to_milvus.
  apply confined_bind; [apply confined_quiet, only_prints_gets|].
  intros m. destruct (m !! collection_name) as [c|].
  - apply confined_bind; [apply confined_validate|].
    intros [h|]; [apply confined_ret|].
    apply confined_bind; [apply confined_print | intros ?; apply confined_ret].
  - apply confined_bind; [apply confined_create|].
    intros h.
    apply confined_bind; [apply confined_print | intros ?; apply confined_ret].
Qed.

Lemma confined_insert (embeddings : list (vector F)) (ids : list Z) :
  confined_to collection_name
    (Collection_insert insert_nothing collection_name embeddings ids).
Proof.
  intros w. unfold Collection_insert. run_M.
  destruct (milvus w !! collection_name) as [c|]; simpl; [|auto].
  assert (Hput : forall rows,
    let w' := mk_world
                (<[collection_name := mk_collection (schema c) rows]> (milvus w))
                (articles w) (article_summaries w) (stdout w) in
    articles w' = articles w /\ article_summaries w' = article_summaries w
    /\ forall other, other <> collection_name ->
                     milvus w' !! other = milvus w !! other).
  { intros rows. simpl. repeat split.
    intros other Hother. now apply lookup_insert_ne. }
  destruct embeddings as [|v vs], ids as [|i ids];
    try (destruct (column_check (schema c) _ _); simpl; [apply Hput|auto]).
  simpl. auto.
Qed.

End IndexFootprint.

(** X27.  Indexing writes to one collection only.  However a run of
    [insert_weighted_embeddings] ends, the two MySQL tables are as they
    were and so is every collection of the server other than the
    configured one. *)
Theorem insert_weighted_embeddings_confined {F : Type} `{Arith F}
    (collection_name : string) (encode : option string -> result (vector F))
    (insert_nothing : result unit)
    (arts : list milvus_insert.article) (summaries : gmap Z (option string))
    (w : world F) :
  let w' := (milvus_insert.insert_weighted_embeddings collection_name encode
               insert_nothing arts summaries w).1 in
  articles w' = articles w
  /\ article_summaries w' = article_summaries w
  /\ forall other, other <> collection_name ->
                   milvus w' !! other = milvus w !! other.
Proof.
  apply (confined_bind_returned collection_name
           (milvus_insert.connect_to_milvus collection_name) _
           (fun handle => handle = collection_name));
    [apply confined_connect | apply connect_to_milvus_handle |].
  intros handle ->.
  apply confined_bind; [apply confined_lift|]. intros [embeddings ids].
  apply confined_bind; [|intros ?; apply confined_print].
  apply (confined_insert collection_name insert_nothing).
Qed.

Section RepairThenIndex.

Import milvus_insert.

Context {F : Type} `{Arith F}.
Variable collection_name : string.
Variable encode : option string -> result (vector F).
Variable insert_nothing : result unit.

(** X28.  Indexing over a collection of another dimension starts from
    nothing.  When the "embeddings" field of the existing collection
    declares a dimension other than 768, a run over a non-empty batch
    (the embedder answering with vectors of dimension 768) leaves a
    collection of the declared schema that holds the entities of the
    batch and none of those stored before. *)
Theorem insert_after_repair
    (w : world F) (c : collection F) (pre post : list FieldSchema)
    (f : FieldSchema) (d : Z)
    (arts : list article) (summaries : gmap Z (option string)) :
  milvus w !! collection_name = Some c ->
  fields (schema c) = (pre ++ f :: post)%list ->
  (forall g, In g pre -> field_name g <> "embeddings") ->
  field_name f = "embeddings" ->
  params f !! "dim" = Some d ->
  d <> 768 ->
  arts <> [] ->
  (forall art text, In art arts -> In text (texts summaries art) ->
                    exists v, encode text = Returned v /\ length v = 768%nat) ->
  exists w' rows,
    insert_weighted_embeddings collection_name encode insert_nothing
                               arts summaries w
    = (w', Returned tt)
    /\ milvus w' !! collection_name = Some (mk_collection schema_768 rows)
    /\ map snd rows = map article_id arts.
Proof.
  intros Hcoll Hfields Hpre Hname Hdim Hd Hne Henc.
  pose proof (connect_to_milvus_repairs collection_name w c pre post f d
                Hcoll Hfields Hpre Hname Hdim Hd) as Hconnect.
  destruct (index_batch_stores collection_name encode insert_nothing
              w _ (mk_collection schema_768 []) arts summaries Hconnect)
    as (vs & Hvs & Hrun); auto.
  { unfold fresh_world. simpl. apply lookup_insert_eq. }
  rewrite Hrun. eexists _, _. split; [reflexivity|]. split.
  - unfold indexed_world. simpl. rewrite lookup_insert_eq. reflexivity.
  - apply snd_zip. rewrite length_map, (Forall2_length _ _ _ Hvs). lia.
Qed.

End RepairThenIndex.

Lemma create_index_idempotent_witness :
  milvus_search_cli.create_index_for_collection "articles" (fun _ => None)
    CliExample.indexed
  = (session_printed CliExample.indexed
       ["Index already exists for collection 'articles'. Skipping index creation."],
     Returned tt).
Proof.
  apply (create_index_idempotent "articles" (fun _ => None)
           CliExample.start CliExample.indexed).
  reflexivity.
Defined.

Lemma create_index_keeps_indexes_witness :
  milvus_search_cli.indexes
    (milvus_search_cli.create_index_for_collection "articles" (fun _ => None)
       CliExample.indexed).1 !! "articles"
  = milvus_search_cli.indexes CliExample.indexed !! "articles".
Proof.
  apply (create_index_keeps_indexes "articles" (fun _ => None)
           CliExample.indexed "articles").
  eexists. reflexivity.
Defined.

Lemma create_index_failures_witness :
  milvus_search_cli.create_index_for_collection "articles"
    (fun _ => Some (LibraryError "no vector field")) CliExample.start
  = (session_printed CliExample.start
       ["Failed to create index: no vector field"],
     Raised (LibraryError "no vector field")).
Proof.
  apply (proj2 (create_index_failures "articles"
                  (fun _ => Some (LibraryError "no vector field"))
                  CliExample.start)
           (mk_collection (mk_schema [] "") [])
           (LibraryError "no vector field"));
    reflexivity.
Defined.

Lemma display_results_lines_witness :
  exists lines,
    milvus_search_cli.display_results (F := Z) CliExample.str_date CliExample.rows "titles"
      RankExample.store
    = (printed RankExample.store lines, Returned tt)
    /\ length lines = 22%nat
    /\ take 7 (drop 8 lines)
       = [ "ID: 5"; "Title: five"; "Authors: A. Author"; "Date: No Date";
           "Abstract: An abstract...."; "Keywords: No Keywords";
           milvus_search_cli.str_times "-" 80 ].
Proof.
  destruct (display_results_lines CliExample.str_date CliExample.rows
              "titles" RankExample.store)
    as (lines & Hrun & (Hlen & _ & Hrow) & _).
  exists lines. split; [exact Hrun|]. split; [exact Hlen|].
  exact (Hrow 1%nat 5 "five" (Some "A. Author") None (Some "An abstract.")
           None eq_refl).
Defined.

Lemma display_article_abstract_witness :
  exists lines shown rest,
    milvus_search_cli.display_article (F := Z) CliExample.str_date
      (2, "two", None, None, Some "An abstract.", None) RankExample.store
    = (printed RankExample.store lines, Returned tt)
    /\ length lines = 7%nat
    /\ lines !! 4%nat = Some ("Abstract: " +:+ shown +:+ "...")
    /\ "An abstract." = shown +:+ rest
    /\ String.length shown = Nat.min 100 (String.length "An abstract.").
Proof.
  apply (display_article_abstract CliExample.str_date 2 "two" None None
           "An abstract." None RankExample.store).
  discriminate.
Defined.

Lemma export_to_csv_file_witness :
  exists rows,
    milvus_search_cli.export_to_csv (fun _ => None) CliExample.str_date
      CliExample.rows "out.csv" CliExample.indexed
    = (milvus_search_cli.mk_session
         (printed (milvus_search_cli.base CliExample.indexed)
            ["Results exported to " +:+ "out.csv"])
         (milvus_search_cli.indexes CliExample.indexed)
         (<["out.csv" := milvus_search_cli.csv_header :: rows]>
            (milvus_search_cli.files CliExample.indexed))
         (milvus_search_cli.typed CliExample.indexed)
         (milvus_search_cli.consumed CliExample.indexed),
       Returned tt)
    /\ rows = map (milvus_search_cli.csv_row CliExample.str_date)
                  CliExample.rows
    /\ Forall (fun row => length row = length milvus_search_cli.csv_header)
              rows.
Proof.
  apply (export_to_csv_file (fun _ => None) CliExample.str_date
           CliExample.rows "out.csv" CliExample.indexed).
  - discriminate.
  - reflexivity.
Defined.

Lemma main_files_witness :
  milvus_search_cli.files (CliExample.script CliExample.start).1
  = <["results.csv" :=
        milvus_search_cli.csv_header
        :: map (milvus_search_cli.csv_row CliExample.str_date)
               CliExample.rows]> ∅
  /\ milvus_search_cli.consumed (CliExample.script CliExample.start).1
     = 4%nat.
Proof.
  apply (main_files "articles" (mk_datetime 739000 0) (fun _ => None)
           (fun _ => Returned []) (fun _ => None)
           (fun _ _ _ _ => Returned [[5; 2; 9]])
           (fun _ => None) (fun _ => None) CliExample.str_date
           CliExample.start CliExample.indexed
           (printed (milvus_search_cli.base CliExample.indexed)
              ["Enter your query: ";
               "What would you like to see? (all, titles, keywords): ";
               "Milvus collection 'articles' loaded into memory.";
               "Milvus returned IDs: [5, 2, 9]"])
           CliExample.rows).
  - reflexivity.
  - reflexivity.
Defined.

Lemma encode_example_total (arts : list milvus_insert.article)
    (summaries : gmap Z (option string)) :
  Forall (fun art : milvus_insert.article => art.1.2 <> "bad") arts ->
  Forall (fun art : milvus_insert.article => art.2 <> Some "bad") arts ->
  (forall i, summaries !! i <> Some (Some "bad")) ->
  forall art text, In art arts -> In text (texts summaries art) ->
    exists v, IndexExample.encode text = Returned v /\ length v = 768%nat.
Proof.
  intros Htitles Habstracts Hsums art text Hart Htext.
  rewrite Forall_forall in Htitles, Habstracts.
  apply list_elem_of_In in Hart.
  specialize (Htitles art Hart). specialize (Habstracts art Hart).
  assert (Hlen : length (repeat 0%Q 768) = 768%nat) by apply repeat_length.
  assert (Hok : text <> Some "bad").
  { destruct Htext as [<-|[<-|[<-|[]]]]; [congruence|assumption|].
    destruct (summaries !! art.1.1) as [x|] eqn:Hx; simpl.
    - intros ->. now apply (Hsums art.1.1).
    - discriminate. }
  exists (repeat 0%Q 768). split; [|exact Hlen].
  unfold IndexExample.encode.
  destruct text as [x|]; [|reflexivity].
  destruct (String.eqb_spec x "bad") as [->|Hne]; [congruence|].
  repeat (destruct x as [|[[] [] [] [] [] [] [] []] x]; try reflexivity;
          try congruence).
Qed.

Lemma main_indexes_table_witness :
  exists w' rows,
    milvus_insert_main.main (H := exact_arith) "articles" IndexExample.encode
      (Returned tt) TableExample.table
    = (w', Returned tt)
    /\ milvus w' !! "articles"
       = Some (mk_collection milvus_insert.schema_768 ([] ++ rows))
    /\ map snd rows = [2; 5].
Proof.
  apply (main_indexes_table (H := exact_arith) "articles" IndexExample.encode
           (Returned tt) TableExample.table
           (fresh_world "articles" TableExample.table
              ["Created new collection: articles"])
           (mk_collection milvus_insert.schema_768 [])).
  - discriminate.
  - reflexivity.
  - reflexivity.
  - reflexivity.
  - apply encode_example_total.
    + repeat constructor; discriminate.
    + repeat constructor; discriminate.
    + intros i Hi. apply summaries_dict_from_rows in Hi as (row & Hrow & Hs).
      destruct Hrow as [<-|[<-|[]]]; discriminate Hs.
Defined.

Lemma connect_to_milvus_missing_dim_witness :
  milvus_insert.connect_to_milvus "articles" TableExample.plain_server
  = (TableExample.plain_server, Raised (KeyError "dim")).
Proof.
  apply (connect_to_milvus_missing_dim "articles" TableExample.plain_server
           (mk_collection
              (mk_schema [TableExample.field_id; TableExample.field_plain] "")
              [])
           [TableExample.field_id] [] TableExample.field_plain).
  - reflexivity.
  - reflexivity.
  - intros g [<-|[]]. discriminate.
  - reflexivity.
  - reflexivity.
Defined.

Lemma connect_to_milvus_settles_witness :
  "articles" = "articles"
  /\ milvus_insert.connect_to_milvus "articles"
       (fresh_world "articles" TableExample.old_server
          ["Schema mismatch detected for field 'embeddings'. Expected dim=768, got dim=512.";
           "Dropping and recreating the collection.";
           "Recreated collection: articles"])
     = (printed
          (fresh_world "articles" TableExample.old_server
             ["Schema mismatch detected for field 'embeddings'. Expected dim=768, got dim=512.";
              "Dropping and recreating the collection.";
              "Recreated collection: articles"])
          ["Connected to existing collection: " +:+ "articles"
           +:+ " with correct schema."],
        Returned "articles").
Proof.
  apply (connect_to_milvus_settles "articles" TableExample.old_server
           (fresh_world "articles" TableExample.old_server
              ["Schema mismatch detected for field 'embeddings'. Expected dim=768, got dim=512.";
               "Dropping and recreating the collection.";
               "Recreated collection: articles"])
           "articles").
  vm_compute. reflexivity.
Defined.

Lemma insert_after_repair_witness :
  exists w' rows,
    milvus_insert.insert_weighted_embeddings (H := exact_arith) "articles"
      IndexExample.encode (Returned tt) IndexExample.batch_1 ∅
      TableExample.old_server
    = (w', Returned tt)
    /\ milvus w' !! "articles"
       = Some (mk_collection milvus_insert.schema_768 rows)
    /\ map snd rows = map article_id IndexExample.batch_1.
Proof.
  apply (insert_after_repair (H := exact_arith) "articles" IndexExample.encode
           (Returned tt) TableExample.old_server TableExample.old_collection
           [] [TableExample.field_id] TableExample.field_512 512
           IndexExample.batch_1 ∅).
  - reflexivity.
  - reflexivity.
  - intros g [].
  - reflexivity.
  - reflexivity.
  - discriminate.
  - discriminate.
  - apply encode_example_total.
    + repeat constructor; discriminate.
    + repeat constructor; discriminate.
    + intros i. rewrite lookup_empty. discriminate.
Defined.

